(** * gke-mcp: the changelog line filter and the release-notes extractor

    A shallow embedding of

    - [keepOnlyChanges] and its two tables, [changelogVersionLineRegexp] and
      [ignoredSectionPrefixes] (pkg/tools/k8schangelog/k8schangelog.go);
    - the tail of [getGkeReleaseNotes] (package gkereleasenotes), which prunes
      a parsed HTML document with goquery and concatenates the text of the
      remaining release blocks.

    Go strings are byte strings; they are modelled by [string], whose
    characters are the 256 values of [ascii]. *)

From Stdlib Require Import Ascii.
From Stdlib Require String.
From stdpp Require Import base tactics list strings gmap.

Local Open Scope string_scope.
Local Open Scope list_scope.

Local Arguments Ascii.eqb : simpl never.

(** ** Go's [strings] package, as far as the two programs use it *)

Module strings.

(** The one-byte string ["\n"]. *)
Definition nl : string := String "010"%char "".

(** [strings.HasPrefix(s, prefix)]. *)
Fixpoint HasPrefix (s prefix : string) {struct prefix} : bool :=
  match prefix, s with
  | EmptyString, _ => true
  | String p prefix', String c s' =>
      if Ascii.eqb p c then HasPrefix s' prefix' else false
  | String _ _, EmptyString => false
  end.

(** [strings.HasSuffix(s, suffix)]: the suffix is a prefix of the reversed
    string, read backwards. *)
Fixpoint rev (s : string) : string :=
  match s with
  | EmptyString => EmptyString
  | String c s' => String.append (rev s') (String c "")
  end.

Definition HasSuffix (s suffix : string) : bool :=
  HasPrefix (rev s) (rev suffix).

(** [strings.Split(s, sep)] for a separator of one byte, the only kind the
    source passes.  [cur] is the piece being read; the result always has
    at least one piece, so [Split "" sep] is [[""]]. *)
Fixpoint splitFrom (sep : ascii) (cur : string) (s : string) : list string :=
  match s with
  | EmptyString => [cur]
  | String c s' =>
      if Ascii.eqb c sep then cur :: splitFrom sep "" s'
      else splitFrom sep (String.append cur (String c "")) s'
  end.

Definition Split (s : string) (sep : ascii) : list string :=
  splitFrom sep "" s.

(** [strings.Join(elems, sep)] *)
Fixpoint Join (elems : list string) (sep : string) : string :=
  match elems with
  | [] => ""
  | [x] => x
  | x :: rest => String.append x (String.append sep (Join rest sep))
  end.

(** [strings.Contains(s, substr)] *)
Fixpoint Contains (s substr : string) : bool :=
  HasPrefix s substr ||
  match s with
  | String _ s' => Contains s' substr
  | EmptyString => false
  end.

(** The ASCII white space of [strings.TrimSpace]: tab, line feed, vertical
    tab, form feed, carriage return and space. *)
Definition asciiSpace (c : ascii) : bool :=
  match c with
  | "009" | "010" | "011" | "012" | "013" | " " => true
  | _ => false
  end%char.

(** The other runes of [unicode.IsSpace], by their UTF-8 encoding: U+0085 and
    U+00A0 on two bytes; U+1680, U+2000 to U+200A, U+2028, U+2029, U+202F,
    U+205F and U+3000 on three. *)
Definition isSpace2 (c d : ascii) : bool :=
  Ascii.eqb c "194" && (Ascii.eqb d "133" || Ascii.eqb d "160").

Definition isSpace3 (c d e : ascii) : bool :=
  (Ascii.eqb c "225" && Ascii.eqb d "154" && Ascii.eqb e "128")
  || (Ascii.eqb c "226" && Ascii.eqb d "128"
      && ((128 <=? nat_of_ascii e)%nat && (nat_of_ascii e <=? 138)%nat
          || Ascii.eqb e "168" || Ascii.eqb e "169" || Ascii.eqb e "175"))
  || (Ascii.eqb c "226" && Ascii.eqb d "129" && Ascii.eqb e "159")
  || (Ascii.eqb c "227" && Ascii.eqb d "128" && Ascii.eqb e "128").

(** [strings.TrimLeftFunc(s, unicode.IsSpace)]: the white-space runes at the
    start are dropped; a byte that starts no white-space rune stops the
    scan. *)
Fixpoint trimLeft (s : string) : string :=
  match s with
  | EmptyString => EmptyString
  | String c r =>
      if asciiSpace c then trimLeft r
      else
        match r with
        | String d r1 =>
            if isSpace2 c d then trimLeft r1
            else
              match r1 with
              | String e r2 => if isSpace3 c d e then trimLeft r2 else s
              | EmptyString => s
              end
        | EmptyString => s
        end
  end.

(** The same scan on the reversed string, where the last byte of a rune
    comes first. *)
Fixpoint trimLeftRev (s : string) : string :=
  match s with
  | EmptyString => EmptyString
  | String c r =>
      if asciiSpace c then trimLeftRev r
      else
        match r with
        | String d r1 =>
            if isSpace2 d c then trimLeftRev r1
            else
              match r1 with
              | String e r2 => if isSpace3 e d c then trimLeftRev r2 else s
              | EmptyString => s
              end
        | EmptyString => s
        end
  end.

(** [strings.TrimRightFunc(s, unicode.IsSpace)] *)
Definition trimRight (s : string) : string := rev (trimLeftRev (rev s)).

(** [strings.TrimSpace(s)]: the white space at both ends is dropped.  The
    loops over ASCII bytes of the source are the one-byte case of the two
    scans. *)
Definition TrimSpace (s : string) : string := trimRight (trimLeft s).

(** A [strings.Builder] is the string written so far. *)
Definition Builder := string.

Definition WriteString (b : Builder) (s : string) : Builder :=
  String.append b s.

End strings.

(** ** Go's [regexp], for patterns that are a sequence of quantified
     one-character atoms, optionally anchored at either end of the text *)

Module regexp.

Inductive Atom : Type :=
| Lit (c : ascii)     (* a literal character *)
| Digit               (* \d : [0-9] *)
| Space.              (* \s : [\t\n\f\r ] *)

Inductive Quant : Type :=
| One                 (* x  *)
| ZeroOrOne           (* x? *)
| ZeroOrMore          (* x* *)
| OneOrMore.          (* x+ *)

Record Regexp : Type := MustCompile {
  beginText : bool;                 (* does the pattern start with ^ *)
  items : list (Atom * Quant);
  endText : bool                    (* does the pattern end with $ *)
}.

Definition isDigit (c : ascii) : bool :=
  (48 <=? nat_of_ascii c)%nat && (nat_of_ascii c <=? 57)%nat.

Definition isSpace (c : ascii) : bool :=
  match c with
  | "009" | "010" | "012" | "013" | " " => true
  | _ => false
  end%char.

Definition accepts (a : Atom) (c : ascii) : bool :=
  match a with
  | Lit x => Ascii.eqb x c
  | Digit => isDigit c
  | Space => isSpace c
  end.

(** Zero or more characters accepted by [a], then the continuation [k]. *)
Fixpoint matchStar (a : Atom) (k : string -> bool) (s : string) : bool :=
  k s ||
  match s with
  | String c s' => accepts a c && matchStar a k s'
  | EmptyString => false
  end.

(** Does a match of [its] start at the beginning of [s]?  With [atEnd] the
    match has to reach the end of the text; otherwise the text after the
    match is free. *)
Fixpoint matchHere (atEnd : bool) (its : list (Atom * Quant)) (s : string)
    : bool :=
  match its with
  | [] => if atEnd then (match s with EmptyString => true | _ => false end)
          else true
  | (a, One) :: its' =>
      match s with
      | String c s' => accepts a c && matchHere atEnd its' s'
      | EmptyString => false
      end
  | (a, ZeroOrOne) :: its' =>
      matchHere atEnd its' s ||
      match s with
      | String c s' => accepts a c && matchHere atEnd its' s'
      | EmptyString => false
      end
  | (a, ZeroOrMore) :: its' => matchStar a (matchHere atEnd its') s
  | (a, OneOrMore) :: its' =>
      match s with
      | String c s' => accepts a c && matchStar a (matchHere atEnd its') s'
      | EmptyString => false
      end
  end.

(** An unanchored pattern may match at any offset. *)
Fixpoint matchAnywhere (atEnd : bool) (its : list (Atom * Quant)) (s : string)
    : bool :=
  matchHere atEnd its s ||
  match s with
  | String _ s' => matchAnywhere atEnd its s'
  | EmptyString => false
  end.

(** [re.MatchString(s)]: does [s] contain a match of [re]? *)
Definition MatchString (re : Regexp) (s : string) : bool :=
  if beginText re then matchHere (endText re) (items re) s
  else matchAnywhere (endText re) (items re) s.

End regexp.

(** ** pkg/tools/k8schangelog *)

Module k8schangelog.
Import strings regexp.

(** [regexp.MustCompile(`^\d+\.\d+$`)] *)
Definition kubernetesMinorVersionRegexp : Regexp :=
  MustCompile true [ (Digit, OneOrMore); (Lit ".", One); (Digit, OneOrMore) ]%char
    true.

(** [regexp.MustCompile(`^# v\d\.\d+\.\d+`)] *)
Definition changelogVersionLineRegexp : Regexp :=
  MustCompile true
    [ (Lit "#", One); (Lit " ", One); (Lit "v", One);
      (Digit, One); (Lit ".", One);
      (Digit, OneOrMore); (Lit ".", One);
      (Digit, OneOrMore) ]%char
    false.

Definition ignoredSectionPrefixes : list string :=
  [ "## Dependencies"; "## Downloads for" ].

(** The inner loop over [ignoredSectionPrefixes]: it stops at the first
    prefix of the line, and both flags it sets are then true. *)
Fixpoint anyPrefix (line : string) (prefixes : list string) : bool :=
  match prefixes with
  | [] => false
  | prefix :: rest =>
      if HasPrefix line prefix then true else anyPrefix line rest
  end.

(** The variables of [keepOnlyChanges] that live across iterations. *)
Record LoopState : Type := mkState {
  result : Builder;
  hasMetTheFirstVersionHeading : bool;
  isInIgnoredSection : bool
}.

Definition initial : LoopState := mkState "" false false.

(** One iteration of the [for _, line := range lines] loop; [continue]
    leaves the iteration with the state reached so far. *)
Definition step (st : LoopState) (line : string) : LoopState :=
  if negb (hasMetTheFirstVersionHeading st)
     && negb (MatchString changelogVersionLineRegexp line)
  then st                                                  (* continue *)
  else
    (* hasMetTheFirstVersionHeading is true from here on *)
    let isIgnoredSectionHeader := anyPrefix line ignoredSectionPrefixes in
    if isIgnoredSectionHeader
    then mkState (result st) true true                     (* continue *)
    else
      let isInIgnoredSection' :=
        if isInIgnoredSection st
           && (HasPrefix line "# " || HasPrefix line "## ")
        then false
        else isInIgnoredSection st in
      if negb isInIgnoredSection'
      then mkState (WriteString (WriteString (result st) line) nl)
             true isInIgnoredSection'
      else mkState (result st) true isInIgnoredSection'.

Definition run (st : LoopState) (lines : list string) : LoopState :=
  fold_left step lines st.

Definition keepOnlyChanges (changelog : string) : string :=
  result (run initial (Split changelog "010")).

End k8schangelog.

(** ** golang.org/x/net/html: the node tree *)

Module html.

Inductive NodeType : Type :=
| ErrorNode | TextNode | DocumentNode | ElementNode | CommentNode | DoctypeNode.

Record Attribute : Type := mkAttribute { Key : string; Val : string }.

(** A node of the parsed tree.  [addr] stands for the address of the
    [*html.Node]: it is what tells two nodes apart, whatever they hold.
    The sibling and child pointers are the list of children; the parent
    pointer is recovered from the tree ([goquery.parentOf] below). *)
#[local] Unset Elimination Schemes.
Inductive Node : Type :=
| mkNode (addr : nat) (type : NodeType) (data : string)
         (attr : list Attribute) (kids : list Node).
#[local] Set Elimination Schemes.

Definition addr (n : Node) : nat := let 'mkNode a _ _ _ _ := n in a.
Definition Type_ (n : Node) : NodeType := let 'mkNode _ t _ _ _ := n in t.
Definition Data (n : Node) : string := let 'mkNode _ _ d _ _ := n in d.
Definition Attr (n : Node) : list Attribute := let 'mkNode _ _ _ a _ := n in a.
Definition children (n : Node) : list Node := let 'mkNode _ _ _ _ k := n in k.

Definition isType (t : NodeType) (n : Node) : bool :=
  match t, Type_ n with
  | ErrorNode, ErrorNode | TextNode, TextNode | DocumentNode, DocumentNode
  | ElementNode, ElementNode | CommentNode, CommentNode
  | DoctypeNode, DoctypeNode => true
  | _, _ => false
  end.

(** [parent.RemoveChild(c)] for the node [c] at address [a], wherever its
    parent is below [n]: the child is unlinked with everything under it. *)
Fixpoint RemoveChild (a : nat) (n : Node) : Node :=
  match n with
  | mkNode x t d at_ kids =>
      mkNode x t d at_
        (flat_map (fun c => if Nat.eqb (addr c) a then [] else [RemoveChild a c]) kids)
  end.

End html.

(** ** github.com/andybalholm/cascadia: the three selectors in use *)

Module cascadia.
Import strings html.

Definition Matcher := Node -> bool.

(** [matchAttribute]: an element with an attribute [key] whose value
    satisfies [f]. *)
Definition matchAttribute (n : Node) (key : string) (f : string -> bool) : bool :=
  isType ElementNode n
  && existsb (fun a => String.eqb (Key a) key && f (Val a)) (Attr n).

(** The selector [[key$="val"]]. *)
Definition attributeSuffixSelector (key val : string) : Matcher :=
  fun n => matchAttribute n key (fun s => HasSuffix s val).

Definition isWhitespace (c : ascii) : bool :=
  match c with
  | " " | "009" | "013" | "010" | "012" => true
  | _ => false
  end%char.

(** [matchInclude]: [val] is one of the whitespace-separated words of [s].
    [cur] is the word being read; at the end of [s] an empty [cur] means
    that nothing is left to compare. *)
Fixpoint includesFrom (val cur s : string) : bool :=
  match s with
  | EmptyString =>
      match cur with
      | EmptyString => false
      | String _ _ => String.eqb cur val
      end
  | String c s' =>
      if isWhitespace c
      then String.eqb cur val || includesFrom val "" s'
      else includesFrom val (String.append cur (String c "")) s'
  end.

Definition matchInclude (val s : string) : bool := includesFrom val "" s.

(** The selector [.class]. *)
Definition classSelector (class : string) : Matcher :=
  fun n => matchAttribute n "class" (matchInclude class).

(** [m.MatchAll(n)]: the nodes of the tree at [n] that match, [n] first,
    in document order. *)
Fixpoint MatchAll (m : Matcher) (n : Node) : list Node :=
  (if m n then [n] else []) ++ flat_map (MatchAll m) (children n).

End cascadia.

(** ** github.com/PuerkitoBio/goquery *)

Module goquery.
Import strings html cascadia.

(** A [Selection] is its slice of node pointers; a pointer gives access to
    the tree below it, so a selected node is kept with its subtree. *)
Definition Selection := list Node.

Definition isInSlice (slice : list Node) (n : Node) : bool :=
  existsb (fun x => Nat.eqb (addr x) (addr n)) slice.

(** [appendWithoutDuplicates] *)
Definition appendWithoutDuplicates (target nodes : list Node) : list Node :=
  fold_left (fun acc n => if isInSlice acc n then acc else acc ++ [n])
    nodes target.

(** [mapNodes]: the results of [f] on every node, without duplicates. *)
Definition mapNodes (nodes : list Node) (f : Node -> list Node) : list Node :=
  fold_left (fun result n => appendWithoutDuplicates result (f n)) nodes [].

(** [s.Find(selector)]: the matches below the nodes of [s]. *)
Definition Find (s : Selection) (m : Matcher) : Selection :=
  mapNodes s (fun n =>
    flat_map (fun c => if isType ElementNode c then MatchAll m c else [])
      (children n)).

(** [n.Parent]: the node of the tree at [root] that has the node at address
    [a] among its children, searched from the root down. *)
Fixpoint parentOf (root : Node) (a : nat) : option Node :=
  if existsb (fun c => Nat.eqb (addr c) a) (children root) then Some root
  else head (flat_map (fun c => option_list (parentOf c a)) (children root)).

(** [s.Parent()]: [getParentNodes] keeps a parent only when it is an
    element, which leaves the document node out. *)
Definition Parent (root : Node) (s : Selection) : Selection :=
  mapNodes s (fun n =>
    match parentOf root (addr n) with
    | Some p => if isType ElementNode p then [p] else []
    | None => []
    end).

(** [s.Remove()]: every node of [s] that has a parent is unlinked from it,
    one after the other.  The result is the document after the calls. *)
Definition Remove (root : Node) (s : Selection) : Node :=
  fold_left (fun doc n => RemoveChild (addr n) doc) s root.

(** [s.Text()] on one node: the data of the text nodes at and below it. *)
Fixpoint nodeText (n : Node) : string :=
  String.append (if isType TextNode n then Data n else "")
    (String.concat "" (map nodeText (children n))).

Definition Text (s : Selection) : string :=
  String.concat "" (map nodeText s).

End goquery.

(** ** package gkereleasenotes *)

Module gkereleasenotes.
Import strings html cascadia goquery.

Definition versionUpdates : Matcher :=
  attributeSuffixSelector "data-text" "Version updates".
Definition securityUpdates : Matcher :=
  attributeSuffixSelector "data-text" "Security updates".
Definition releases : Matcher := classSelector "releases".

(** [doc.Find(sel).Parent().Parent().Remove()] *)
Definition removeGrandparents (doc : Node) (m : Matcher) : Node :=
  Remove doc (Parent doc (Parent doc (Find [doc] m))).

(** The document after the two removals, on which [.releases] is searched. *)
Definition pruned (doc : Node) : Node :=
  removeGrandparents (removeGrandparents doc versionUpdates) securityUpdates.

(** Lines 61 to 66: the text written to the builder. *)
Definition releaseText (doc : Node) : string :=
  fold_left (fun result s => WriteString result (Text [s]))
    (Find [pruned doc] releases) "".

(** What a call of an external collaborator gives back. *)
Inductive outcome (A : Type) : Type :=
| ok (a : A)
| failed (err : string).
Arguments ok {A} a.
Arguments failed {A} err.

(** [getGkeReleaseNotes], given what [lynx] printed and the parser; the
    result is the text of the tool's content, or the error returned. *)
Definition getGkeReleaseNotes (lynx : outcome string)
    (NewDocumentFromReader : string -> outcome Node) : outcome string :=
  match lynx with
  | failed err => failed err
  | ok out =>
      match NewDocumentFromReader out with
      | failed err => failed err
      | ok doc => ok (releaseText doc)
      end
  end.

End gkereleasenotes.

(** ** pkg/tools/k8schangelog: the tool *)

Module k8schangelog_tool.
Import strings regexp k8schangelog gkereleasenotes.

Record getK8sChangelogArgs : Type := mkArgs {
  KubernetesMinorVersion : string
}.

(** What a call does to the outside: the commands it runs and the lines it
    logs, in order. *)
Inductive event : Type :=
| Exec (name : string) (arg : list string)
| Printf (msg : string).

(** [getK8sChangelog].  [Output name arg] stands for
    [exec.Command(name, arg...).Output()]; an error is its message.  The
    result is the text of the tool's content, or the error, with what the
    call did. *)
Definition getK8sChangelog
    (Output : string -> list string -> outcome string)
    (args : getK8sChangelogArgs) : outcome string * list event :=
  let version := TrimSpace (KubernetesMinorVersion args) in
  if negb (MatchString kubernetesMinorVersionRegexp version)
  then (failed (String.append "invalid kubernetes minor version: " version), [])
  else
    let changelogUrl :=
      String.append
        "https://raw.githubusercontent.com/kubernetes/kubernetes/refs/heads/master/CHANGELOG/CHANGELOG-"
        (String.append version ".md") in
    match Output "curl" [changelogUrl] with
    | failed err =>
        (failed err,
         [Exec "curl" [changelogUrl];
          Printf (String.append "Failed to get changelog: " err)])
    | ok out =>
        (ok (keepOnlyChanges out), [Exec "curl" [changelogUrl]])
    end.

End k8schangelog_tool.

(** ** text/template, for templates made of text and of fields of a map *)

Module template.
Import strings.

Inductive Item : Type :=
| Literal (text : string)      (* text outside {{ }} *)
| Field (name : string).       (* {{.name}} *)

Definition Template := list Item.

Section Execute.
(** What is printed for a key that the map does not hold. *)
Variable noValue : string.

(** [t.Execute(&buf, data)] on a [map[string]string], and [buf.String()]
    afterwards.  A text is written as it is and a field is looked up in the
    map; neither fails, and a [bytes.Buffer] takes every write. *)
Definition Execute (t : Template) (data : gmap string string) : string :=
  fold_left
    (fun buf it =>
       match it with
       | Literal text => WriteString buf text
       | Field name => WriteString buf (default noValue (data !! name))
       end)
    t "".

End Execute.

End template.

(** ** pkg/prompts/upgraderiskreport *)

Module upgraderiskreport.
Import strings gkereleasenotes template.

Definition clusterNameArgName : string := "cluster_name".
Definition clusterLocationArgName : string := "cluster_location".
Definition targetVersionArgName : string := "target_version".

(** [m[key]] on a Go map of strings: the empty string without the key. *)
Definition index (m : gmap string string) (key : string) : string :=
  default "" (m !! key).

(** [fmt.Errorf("argument '%s' cannot be empty", name)] *)
Definition cannotBeEmpty (name : string) : string :=
  String.append "argument '" (String.append name "' cannot be empty").

Section handler.
Variable noValue : string.
(** The template after its third field: instructions for the model, with no
    field in them. *)
Variable instructions : string.

(** The parsed [gkeUpgradeRiskReportPromptTemplate]. *)
Definition gkeUpgradeRiskReportTmpl : Template :=
  [ Literal (String.append nl "Cluster name: "); Field "clusterName";
    Literal (String.append nl "Cluster location: "); Field "clusterLocation";
    Literal (String.append nl "Target version: "); Field "targetVersion";
    Literal instructions ].

(** [gkeUpgradeRiskReportHandler] on [request.Params.Arguments]; the result
    is the text of the one message of the prompt, or the error. *)
Definition gkeUpgradeRiskReportHandler (Arguments : gmap string string)
    : outcome string :=
  let clusterName := TrimSpace (index Arguments clusterNameArgName) in
  if String.eqb clusterName ""
  then failed (cannotBeEmpty clusterNameArgName)
  else
    let clusterLocation := TrimSpace (index Arguments clusterLocationArgName) in
    if String.eqb clusterLocation ""
    then failed (cannotBeEmpty clusterLocationArgName)
    else
      let targetVersion := TrimSpace (index Arguments targetVersionArgName) in
      ok (Execute noValue gkeUpgradeRiskReportTmpl
            (<["clusterName" := clusterName]>
               (<["clusterLocation" := clusterLocation]>
                  (<["targetVersion" := targetVersion]> ∅)))).

End handler.

End upgraderiskreport.

(** ** pkg/prompts/upgraderiskreport, the revision that requires a target
       version *)

Module upgraderiskreport_required.
Import strings gkereleasenotes template upgraderiskreport.

Section handler.
Variable noValue : string.
(** The texts of the template after its third, fourth and fifth field. *)
Variables afterTarget1 afterTarget2 afterTarget3 : string.

(** The parsed [gkeUpgradeRiskReportPromptTemplate] of this revision: its
    fields for the target version are named [target_version]. *)
Definition gkeUpgradeRiskReportTmpl : Template :=
  [ Literal (String.append nl
       "You are a GKE expert, you have to upgrade a GKE cluster ");
    Field "clusterName";
    Literal " in "; Field "clusterLocation";
    Literal " location to target version - "; Field "target_version";
    Literal afterTarget1; Field "target_version";
    Literal afterTarget2; Field "target_version";
    Literal afterTarget3 ].

Definition gkeUpgradeRiskReportHandler (Arguments : gmap string string)
    : outcome string :=
  let clusterName := index Arguments clusterNameArgName in
  if String.eqb (TrimSpace clusterName) ""
  then failed (cannotBeEmpty clusterNameArgName)
  else
    let clusterLocation := index Arguments clusterLocationArgName in
    if String.eqb (TrimSpace clusterLocation) ""
    then failed (cannotBeEmpty clusterLocationArgName)
    else
      let targetVersion := index Arguments targetVersionArgName in
      if String.eqb (TrimSpace targetVersion) ""
      then failed (cannotBeEmpty targetVersionArgName)
      else
        ok (Execute noValue gkeUpgradeRiskReportTmpl
              (<["clusterName" := clusterName]>
                 (<["clusterLocation" := clusterLocation]>
                    (<["targetVersion" := targetVersion]> ∅)))).

End handler.

End upgraderiskreport_required.

(** * Notions used in the statements *)

(** ** Notions used to state the properties of the filter *)

Section changelog_notions.
Import strings regexp k8schangelog.

(** A line: a string without the separator. *)
Fixpoint lacks (sep : ascii) (s : string) : bool :=
  match s with
  | EmptyString => true
  | String c s' => negb (Ascii.eqb c sep) && lacks sep s'
  end.

(** What the loop writes when it emits every line of [ls]. *)
Fixpoint unlines (ls : list string) : string :=
  match ls with
  | [] => ""
  | l :: ls' => String.append l (String.append nl (unlines ls'))
  end.

(** Every character of [s] is accepted by the atom. *)
Fixpoint allAccepted (a : Atom) (s : string) : bool :=
  match s with
  | EmptyString => true
  | String c s' => accepts a c && allAccepted a s'
  end.

Definition isVersionLine (line : string) : bool :=
  MatchString changelogVersionLineRegexp line.

Definition isIgnoredHeader (line : string) : bool :=
  anyPrefix line ignoredSectionPrefixes.

(** A heading of the first or second level, as the loop tests it. *)
Definition isTopHeading (line : string) : bool :=
  HasPrefix line "# " || HasPrefix line "## ".

(** Does the iteration on [line] write to the builder? *)
Definition emits (st : LoopState) (line : string) : bool :=
  (hasMetTheFirstVersionHeading st || isVersionLine line)
  && negb (isIgnoredHeader line)
  && (negb (isInIgnoredSection st) || isTopHeading line).

(** The lines written by the iterations on [lines], in order. *)
Fixpoint emitted (st : LoopState) (lines : list string) : list string :=
  match lines with
  | [] => []
  | l :: rest =>
      (if emits st l then [l] else []) ++ emitted (step st l) rest
  end.

(** Does some line of [text] match the version-heading pattern? *)
Definition hasVersionHeading (text : string) : bool :=
  existsb (MatchString changelogVersionLineRegexp) (Split text "010").

(** The pattern the specification quotes: [^#\s*v?\d+\.\d+\.\d+]. *)
Definition specVersionLinePattern : Regexp :=
  MustCompile true
    [ (Lit "#", One); (Space, ZeroOrMore); (Lit "v", ZeroOrOne);
      (Digit, OneOrMore); (Lit ".", One);
      (Digit, OneOrMore); (Lit ".", One);
      (Digit, OneOrMore) ]%char
    false.

(** A non-empty run of decimal digits. *)
Definition number (s : string) : bool :=
  match s with
  | EmptyString => false
  | String _ _ => allAccepted Digit s
  end.

(** The lines [changelogVersionLineRegexp] is written to accept: ["# v"],
    one digit, a dot, a number, a dot, a number, then anything. *)
Definition VersionHeading (line : string) : Prop :=
  exists (d : ascii) (minor patch rest : string),
    line = String.append "# v"
             (String d (String.append "."
                (String.append minor (String.append "."
                   (String.append patch rest)))))
    /\ isDigit d = true /\ number minor = true /\ number patch = true.

(** The lines that start with ["# v"], a number, a dot, a number, a dot and
    a number. *)
Definition VersionShaped (line : string) : Prop :=
  exists (major minor patch rest : string),
    line = String.append "# v"
             (String.append major (String.append "."
                (String.append minor (String.append "."
                   (String.append patch rest)))))
    /\ number major = true /\ number minor = true /\ number patch = true.

End changelog_notions.

(** ** Notions used to state the properties of the extractor *)

Section html_notions.
Import strings html cascadia goquery gkereleasenotes.

(** The addresses of the nodes of a tree, in document order. *)
Fixpoint addrs (n : Node) : list nat :=
  addr n :: flat_map addrs (children n).

(** The nodes of a tree, in document order: the nodes [nodeText] visits. *)
Fixpoint subtree (n : Node) : list Node :=
  n :: flat_map subtree (children n).

(** All the nodes whose address is in [dead] are unlinked at once. *)
Fixpoint unlinkAll (dead : list nat) (n : Node) : Node :=
  match n with
  | mkNode x t d at_ kids =>
      mkNode x t d at_
        (flat_map (fun c => if existsb (Nat.eqb (addr c)) dead then []
                            else [unlinkAll dead c]) kids)
  end.

(** A parsed document: the root is the document node, and no two nodes
    share an address. *)
Definition wellFormed (doc : Node) : Prop :=
  isType DocumentNode doc = true /\ NoDup (addrs doc).

(** The nodes an exclusion rule removes: the grandparents of its anchors. *)
Definition removed (doc : Node) (m : Matcher) : Selection :=
  Parent doc (Parent doc (Find [doc] m)).

(** A node with no parent element or no grandparent element: a child of the
    document node, or a child of such a child. *)
Definition fewerThanTwoAncestors (doc a : Node) : Prop :=
  a ∈ children doc \/ exists p, p ∈ children doc /\ a ∈ children p.

Definition element (a : nat) (tag : string) (attr : list Attribute)
    (kids : list Node) : Node :=
  mkNode a ElementNode tag attr kids.

Definition text (a : nat) (s : string) : Node := mkNode a TextNode s [] [].

Definition document (kids : list Node) : Node :=
  mkNode 0 DocumentNode "" [] kids.

(** The scenario of the specification: two release blocks, one of them in
    the section whose heading holds the anchor of an exclusion rule. *)
Definition excludedBlock (old : string) : Node :=
  element 6 "div" [mkAttribute "class" "releases"] [text 7 old].

Definition excludedSection (old : string) : Node :=
  element 3 "section" []
    [ element 4 "h2" []
        [ element 5 "span" [mkAttribute "data-text" "Version updates"]
            [text 10 "Version updates"] ];
      excludedBlock old ].

Definition page (old new : string) : Node :=
  document
    [ element 1 "html" []
        [ element 2 "body" []
            [ excludedSection old;
              element 8 "div" [mkAttribute "class" "notes releases"]
                [text 9 new] ] ] ].

End html_notions.

(** ** Notions used to state the properties of the changelog tool *)

Section tool_notions.
Import strings regexp k8schangelog gkereleasenotes k8schangelog_tool.

(** A string of ASCII white space. *)
Fixpoint onlyAsciiSpace (s : string) : bool :=
  match s with
  | EmptyString => true
  | String c s' => asciiSpace c && onlyAsciiSpace s'
  end.

(** A minor version: a number, a dot and a number. *)
Definition MinorVersion (v : string) : Prop :=
  exists major minor : string,
    v = String.append major (String.append "." minor)
    /\ number major = true /\ number minor = true.

(** The address of the changelog of a minor version. *)
Definition changelogUrlOf (version : string) : string :=
  String.append
    "https://raw.githubusercontent.com/kubernetes/kubernetes/refs/heads/master/CHANGELOG/CHANGELOG-"
    (String.append version ".md").

(** An ASCII character that is not white space. *)
Definition plain (c : ascii) : bool :=
  negb (asciiSpace c) && (nat_of_ascii c <? 128)%nat.

(** Does the string hold such a character? *)
Fixpoint hasPlain (s : string) : bool :=
  match s with
  | EmptyString => false
  | String c s' => plain c || hasPlain s'
  end.

Definition isExec (e : event) : bool :=
  match e with
  | Exec _ _ => true
  | Printf _ => false
  end.

End tool_notions.

(** Induction on a tree, with the property known for every child. *)

Section Node_induction.
Import html.
Variable P : Node -> Prop.
Hypothesis Hnode :
  forall a t d at_ kids, Forall P kids -> P (mkNode a t d at_ kids).

Fixpoint Node_ind (n : Node) : P n :=
  match n with
  | mkNode a t d at_ kids =>
      Hnode a t d at_ kids
        ((fix all (l : list Node) : Forall P l :=
            match l with
            | [] => List.Forall_nil P
            | c :: l' => List.Forall_cons P c l' (Node_ind c) (all l')
            end) kids)
  end.

End Node_induction.

(** * Properties *)

(** ** Byte strings *)

Section string_facts.
Import strings.

Lemma append_nil_r (s : string) : String.append s "" = s.
Proof. induction s as [|c s IH]; [done|]. by rewrite <-IH at 2. Qed.

Lemma append_assoc (a b c : string) :
  String.append (String.append a b) c = String.append a (String.append b c).
Proof.
  induction a as [|x a IH]; [done|].
  change (String x (String.append (String.append a b) c)
          = String x (String.append a (String.append b c))).
  by rewrite IH.
Qed.

Lemma append_cons (x : ascii) (a b : string) :
  String.append (String x a) b = String x (String.append a b).
Proof. done. Qed.

Lemma append_snoc (a : string) (x : ascii) (b : string) :
  String.append (String.append a (String x "")) b
  = String.append a (String x b).
Proof. by rewrite append_assoc. Qed.

Lemma append_eq_nil (a b : string) :
  String.append a b = "" -> a = "" /\ b = "".
Proof. destruct a; [done|]. by rewrite append_cons. Qed.

Lemma HasPrefix_append (p rest : string) :
  HasPrefix (String.append p rest) p = true.
Proof.
  induction p as [|c p IH]; [reflexivity|].
  rewrite append_cons. simpl. by rewrite Ascii.eqb_refl.
Qed.

Lemma HasPrefix_inv (s p : string) :
  HasPrefix s p = true -> exists rest, s = String.append p rest.
Proof.
  revert s. induction p as [|c p IH]; intros s H.
  - by exists s.
  - destruct s as [|d s]; [done|]. simpl in H.
    destruct (Ascii.eqb_spec c d) as [->|]; [|done].
    destruct (IH _ H) as [rest ->]. by exists rest.
Qed.

Lemma rev_append (a b : string) :
  rev (String.append a b) = String.append (rev b) (rev a).
Proof.
  induction a as [|c a IH].
  - change (String.append "" b) with b. simpl. by rewrite append_nil_r.
  - rewrite append_cons. simpl. by rewrite IH, append_assoc.
Qed.

Lemma rev_involutive (s : string) : rev (rev s) = s.
Proof.
  induction s as [|c s IH]; [done|].
  simpl. by rewrite rev_append, IH.
Qed.

(** [HasSuffix] is what its name says: [s] ends with [suffix]. *)
Lemma HasSuffix_spec (s suffix : string) :
  HasSuffix s suffix = true <-> exists pre, s = String.append pre suffix.
Proof.
  unfold HasSuffix. split.
  - intros [rest H]%HasPrefix_inv. exists (rev rest).
    by rewrite <-(rev_involutive s), H, rev_append, rev_involutive.
  - intros [pre ->]. rewrite rev_append. apply HasPrefix_append.
Qed.

Lemma lacks_append sep (a b : string) :
  lacks sep (String.append a b) = lacks sep a && lacks sep b.
Proof.
  induction a as [|c a IH]; [done|].
  rewrite append_cons. simpl. rewrite IH. by rewrite andb_assoc.
Qed.

Lemma splitFrom_lacks sep (s cur : string) :
  lacks sep cur = true ->
  Forall (fun l => lacks sep l = true) (splitFrom sep cur s).
Proof.
  revert cur. induction s as [|c s IH]; intros cur Hcur; simpl.
  - by constructor.
  - destruct (Ascii.eqb c sep) eqn:E.
    + constructor; [done|]. by apply IH.
    + apply IH. rewrite lacks_append, Hcur. simpl. by rewrite E.
Qed.

Lemma Split_lacks (s : string) sep :
  Forall (fun l => lacks sep l = true) (Split s sep).
Proof. by apply splitFrom_lacks. Qed.

(** Splitting a line followed by the separator and more text. *)
Lemma splitFrom_line sep (line cur rest : string) :
  lacks sep line = true ->
  splitFrom sep cur (String.append line (String sep rest))
  = String.append cur line :: splitFrom sep "" rest.
Proof.
  revert cur. induction line as [|c line IH]; intros cur H.
  - change (String.append "" (String sep rest)) with (String sep rest).
    simpl. by rewrite Ascii.eqb_refl, append_nil_r.
  - simpl in H. apply andb_true_iff in H as [Hc Hl].
    rewrite append_cons. simpl.
    destruct (Ascii.eqb c sep); [done|].
    by rewrite IH, append_snoc.
Qed.

Lemma splitFrom_snoc sep (s cur : string) :
  splitFrom sep cur (String.append s (String sep ""))
  = splitFrom sep cur s ++ [""].
Proof.
  revert cur. induction s as [|c s IH]; intros cur.
  - change (String.append "" (String sep "")) with (String sep "").
    simpl. by rewrite Ascii.eqb_refl.
  - rewrite append_cons. simpl.
    destruct (Ascii.eqb c sep); [|done]. by rewrite IH.
Qed.

Lemma unlines_app (a b : list string) :
  unlines (a ++ b) = String.append (unlines a) (unlines b).
Proof.
  induction a as [|l a IH]; [done|].
  simpl. by rewrite IH, !append_assoc.
Qed.

Lemma Split_unlines (ls : list string) :
  Forall (fun l => lacks "010" l = true) ls ->
  Split (unlines ls) "010" = ls ++ [""].
Proof.
  unfold Split. induction 1 as [|l ls Hl _ IH]; [done|].
  simpl. unfold nl. rewrite append_cons.
  change (String.append "" (unlines ls)) with (unlines ls).
  by rewrite splitFrom_line, IH.
Qed.

End string_facts.

(** ** Matching *)

Section regexp_facts.
Import strings regexp.

Lemma matchHere_One (e : bool) (a : Atom) (its : list (Atom * Quant))
    (s : string) :
  matchHere e ((a, One) :: its) s = true
  <-> exists c s', s = String c s' /\ accepts a c = true
                   /\ matchHere e its s' = true.
Proof.
  split.
  - destruct s as [|c s']; simpl; [done|].
    intros [H1 H2]%andb_true_iff. by exists c, s'.
  - intros (c & s' & -> & H1 & H2). simpl. by rewrite H1, H2.
Qed.

Lemma matchStar_spec (a : Atom) (k : string -> bool) (s : string) :
  matchStar a k s = true
  <-> exists pre post, s = String.append pre post
                       /\ allAccepted a pre = true /\ k post = true.
Proof.
  split.
  - induction s as [|c s IH]; simpl.
    + rewrite orb_false_r. intros H. by exists "", "".
    + intros [H|[H1 H2]%andb_true_iff]%orb_true_iff.
      * by exists "", (String c s).
      * destruct (IH H2) as (pre & post & -> & Hp & Hk).
        exists (String c pre), post. simpl. by rewrite H1, Hp.
  - intros (pre & post & -> & Hp & Hk).
    induction pre as [|c pre IH].
    + change (String.append "" post) with post.
      destruct post; simpl; by rewrite Hk.
    + simpl in Hp. apply andb_true_iff in Hp as [H1 H2].
      rewrite append_cons. simpl. rewrite H1, (IH H2). by rewrite orb_true_r.
Qed.

Lemma matchHere_OneOrMore (e : bool) (a : Atom) (its : list (Atom * Quant))
    (s : string) :
  matchHere e ((a, OneOrMore) :: its) s = true
  <-> exists c pre post, s = String c (String.append pre post)
                         /\ allAccepted a (String c pre) = true
                         /\ matchHere e its post = true.
Proof.
  split.
  - destruct s as [|c s']; simpl; [done|].
    intros [H1 H2]%andb_true_iff.
    apply matchStar_spec in H2 as (pre & post & -> & Hp & Hk).
    exists c, pre, post. by rewrite H1, Hp.
  - intros (c & pre & post & -> & [H1 Hp]%andb_true_iff & Hk).
    simpl. rewrite H1. simpl. apply matchStar_spec. by exists pre, post.
Qed.

End regexp_facts.

(** ** The loop of [keepOnlyChanges] *)

Section loop_facts.
Import strings regexp k8schangelog.

(** Case analysis on every test the loop body makes on [line]. *)
Local Ltac flags_cases line :=
  cbn [result hasMetTheFirstVersionHeading isInIgnoredSection];
  destruct (MatchString changelogVersionLineRegexp line);
  destruct (anyPrefix line ignoredSectionPrefixes);
  destruct (HasPrefix line "# ");
  destruct (HasPrefix line "## ");
  repeat match goal with b : bool |- _ => destruct b end;
  cbn [orb andb negb result hasMetTheFirstVersionHeading isInIgnoredSection].

Lemma step_result (st : LoopState) (line : string) :
  result (step st line)
  = if emits st line
    then String.append (result st) (String.append line nl)
    else result st.
Proof.
  unfold step, emits, isVersionLine, isIgnoredHeader, isTopHeading, WriteString.
  destruct st as [r met ign]; flags_cases line; by rewrite ?append_assoc.
Qed.

Lemma run_cons (st : LoopState) (l : string) (ls : list string) :
  run st (l :: ls) = run (step st l) ls.
Proof. done. Qed.

Lemma run_app (st : LoopState) (a b : list string) :
  run st (a ++ b) = run (run st a) b.
Proof. apply fold_left_app. Qed.

Lemma run_result (st : LoopState) (ls : list string) :
  result (run st ls) = String.append (result st) (unlines (emitted st ls)).
Proof.
  revert st. induction ls as [|l ls IH]; intros st.
  - simpl. by rewrite append_nil_r.
  - rewrite run_cons, IH, step_result. simpl.
    destruct (emits st l); [|done].
    simpl. by rewrite !append_assoc.
Qed.

Lemma emitted_app (st : LoopState) (a b : list string) :
  emitted st (a ++ b) = emitted st a ++ emitted (run st a) b.
Proof.
  revert st. induction a as [|l a IH]; intros st; [done|].
  simpl. by rewrite IH, app_assoc.
Qed.

Lemma emitted_sublist (st : LoopState) (ls : list string) :
  emitted st ls `sublist_of` ls.
Proof.
  revert st. induction ls as [|l ls IH]; intros st; simpl.
  - constructor.
  - destruct (emits st l); simpl.
    + by apply sublist_skip.
    + by apply sublist_cons.
Qed.

Lemma emitted_not_ignored (st : LoopState) (ls : list string) :
  Forall (fun l => isIgnoredHeader l = false) (emitted st ls).
Proof.
  revert st. induction ls as [|l ls IH]; intros st; simpl; [constructor|].
  apply Forall_app. split; [|apply IH].
  destruct (emits st l) eqn:E; [|constructor].
  constructor; [|constructor].
  unfold emits in E. destruct (isIgnoredHeader l); [|done].
  by rewrite andb_false_r in E.
Qed.

(** A version heading never starts with an ignored prefix: its second
    character is a space. *)
Lemma version_line_not_ignored (line : string) :
  isVersionLine line = true -> isIgnoredHeader line = false.
Proof.
  unfold isVersionLine, MatchString, changelogVersionLineRegexp.
  cbn [beginText items endText].
  intros (c1 & s1 & -> & H1 & (c2 & s2 & -> & H2 & _)%matchHere_One)%matchHere_One.
  simpl in H1, H2.
  apply Ascii.eqb_eq in H1 as <-. apply Ascii.eqb_eq in H2 as <-.
  reflexivity.
Qed.

(** The loop body, case by case. *)
Lemma step_seeking (st : LoopState) (l : string) :
  hasMetTheFirstVersionHeading st = false -> isVersionLine l = false ->
  step st l = st.
Proof.
  unfold step, isVersionLine. destruct st as [r met ign].
  flags_cases l; done.
Qed.

Lemma step_header (st : LoopState) (l : string) :
  hasMetTheFirstVersionHeading st = true -> isIgnoredHeader l = true ->
  step st l = mkState (result st) true true.
Proof.
  unfold step, isIgnoredHeader. destruct st as [r met ign].
  flags_cases l; done.
Qed.

Lemma step_ignoring (st : LoopState) (l : string) :
  hasMetTheFirstVersionHeading st = true -> isInIgnoredSection st = true ->
  isTopHeading l = false ->
  step st l = mkState (result st) true true.
Proof.
  unfold step, isTopHeading. destruct st as [r met ign].
  flags_cases l; done.
Qed.

Lemma step_exit (st : LoopState) (l : string) :
  hasMetTheFirstVersionHeading st = true ->
  isIgnoredHeader l = false -> isTopHeading l = true ->
  step st l
  = mkState (String.append (result st) (String.append l nl)) true false.
Proof.
  unfold step, isIgnoredHeader, isTopHeading, WriteString.
  destruct st as [r met ign].
  flags_cases l; rewrite ?append_assoc; done.
Qed.

Lemma step_emitting (st : LoopState) (l : string) :
  hasMetTheFirstVersionHeading st = true -> isInIgnoredSection st = false ->
  isIgnoredHeader l = false ->
  step st l
  = mkState (String.append (result st) (String.append l nl)) true false.
Proof.
  unfold step, isIgnoredHeader, WriteString. destruct st as [r met ign].
  flags_cases l; rewrite ?append_assoc; done.
Qed.

(** A version heading starts with ["# "]. *)
Lemma version_line_top (line : string) :
  isVersionLine line = true -> isTopHeading line = true.
Proof.
  unfold isVersionLine, MatchString, changelogVersionLineRegexp.
  cbn [beginText items endText].
  intros (c1 & s1 & -> & H1 & (c2 & s2 & -> & H2 & _)%matchHere_One)%matchHere_One.
  simpl in H1, H2.
  apply Ascii.eqb_eq in H1 as <-. apply Ascii.eqb_eq in H2 as <-.
  reflexivity.
Qed.

Lemma step_first (st : LoopState) (l : string) :
  isVersionLine l = true ->
  step st l
  = mkState (String.append (result st) (String.append l nl)) true false.
Proof.
  intros H.
  pose proof (version_line_not_ignored _ H) as Hn.
  pose proof (version_line_top _ H) as Ht.
  revert H Hn Ht.
  unfold step, isVersionLine, isIgnoredHeader, isTopHeading, WriteString.
  destruct st as [r met ign].
  flags_cases l; rewrite ?append_assoc; done.
Qed.

(** Before the first version heading nothing changes. *)
Lemma run_seeking (pre : list string) :
  Forall (fun l => isVersionLine l = false) pre ->
  run initial pre = initial.
Proof.
  induction 1 as [|l pre Hl _ IH]; [done|].
  by rewrite run_cons, step_seeking.
Qed.

(** While emitting, lines that are not ignored headers are all written. *)
Lemma emitted_all (st : LoopState) (ls : list string) :
  hasMetTheFirstVersionHeading st = true ->
  isInIgnoredSection st = false ->
  Forall (fun l => isIgnoredHeader l = false) ls ->
  emitted st ls = ls.
Proof.
  intros Hm Hi H. revert st Hm Hi.
  induction H as [|l ls Hl _ IH]; intros st Hm Hi; [done|].
  cbn [emitted]. unfold emits. rewrite Hm, Hi, Hl.
  cbn [orb andb negb app]. f_equal.
  apply IH; by rewrite step_emitting.
Qed.

(** The first emitted line is a version heading. *)
Lemma emitted_initial_head (ls : list string) (h : string) (ks : list string) :
  emitted initial ls = h :: ks -> isVersionLine h = true.
Proof.
  induction ls as [|l ls IH]; [done|].
  cbn [emitted]. unfold emits.
  destruct (isVersionLine l) eqn:E.
  - rewrite (version_line_not_ignored _ E). cbn. by intros [= <- _].
  - rewrite step_seeking by done. cbn. apply IH.
Qed.

End loop_facts.

(** ** The changelog filter: the stated properties *)

Section changelog_claims.
Import strings regexp k8schangelog.

Lemma keepOnlyChanges_unlines (t : string) :
  keepOnlyChanges t = unlines (emitted initial (Split t "010")).
Proof. unfold keepOnlyChanges. by rewrite run_result. Qed.

Lemma emitted_lacks (st : LoopState) (ls : list string) :
  Forall (fun l => lacks "010" l = true) ls ->
  Forall (fun l => lacks "010" l = true) (emitted st ls).
Proof.
  rewrite !Forall_forall. intros H l Hl.
  apply H. eapply elem_of_sublist; [done|apply emitted_sublist].
Qed.

Lemma keepOnlyChanges_Split (t : string) :
  Split (keepOnlyChanges t) "010" = emitted initial (Split t "010") ++ [""].
Proof.
  rewrite keepOnlyChanges_unlines. apply Split_unlines.
  apply emitted_lacks, Split_lacks.
Qed.

(** Filtering a non-empty output again adds one line terminator. *)
Lemma keepOnlyChanges_twice (t : string) :
  keepOnlyChanges t <> "" ->
  keepOnlyChanges (keepOnlyChanges t)
  = String.append (keepOnlyChanges t) nl.
Proof.
  intros Hne.
  rewrite (keepOnlyChanges_unlines (keepOnlyChanges t)), keepOnlyChanges_Split.
  rewrite (keepOnlyChanges_unlines t) in *.
  pose proof (emitted_not_ignored initial (Split t "010")) as Hn.
  destruct (emitted initial (Split t "010")) as [|h ks] eqn:E; [done|].
  pose proof (emitted_initial_head _ _ _ E) as Hh.
  apply Forall_cons in Hn as [Hnh Hn].
  change ((h :: ks) ++ [""]) with (h :: (ks ++ [""])).
  cbn [emitted]. unfold emits. rewrite Hh, Hnh. cbn [orb andb negb initial
    isInIgnoredSection hasMetTheFirstVersionHeading app].
  rewrite emitted_all.
  - change (h :: ks ++ [""]) with ((h :: ks) ++ [""]).
    rewrite unlines_app. f_equal.
  - by rewrite step_first.
  - by rewrite step_first.
  - apply Forall_app. split; [done|]. by repeat constructor.
Qed.

(** C1. Once a line with an ignored prefix has been met (after the first
    version heading), nothing is written, whatever the lines are, deeper
    headings included, as long as no line starts with ["# "] or ["## "]
    without being an ignored header itself.  The first line that starts with
    one of these two markers is judged in the same iteration: an ignored
    header keeps the filter silent, any other such line is written and ends
    the ignored subsection.  The two scenarios of the specification evaluate
    as stated. *)
Theorem C1_ignored_subsection :
  (forall (st : LoopState) (h : string) (body : list string),
     hasMetTheFirstVersionHeading st = true ->
     anyPrefix h ignoredSectionPrefixes = true ->
     Forall (fun l => anyPrefix l ignoredSectionPrefixes = true
                      \/ (HasPrefix l "# " || HasPrefix l "## ") = false) body ->
     run st (h :: body) = mkState (result st) true true
     /\ emitted st (h :: body) = []
     /\ forall l,
          (HasPrefix l "# " || HasPrefix l "## ") = true ->
          step (run st (h :: body)) l
          = if anyPrefix l ignoredSectionPrefixes
            then mkState (result st) true true
            else mkState (String.append (result st) (String.append l nl))
                   true false)
  /\ keepOnlyChanges
       (Join ["# v1.0.0"; "## Dependencies"; "### foo"; "- bar";
              "## Changes"; "ok"] nl)
     = unlines ["# v1.0.0"; "## Changes"; "ok"]
  /\ keepOnlyChanges
       (Join ["intro"; "# v1.2.3"; "## Dependencies"; "bump foo";
              "## Changes"; "fix bar"; "# v1.2.2"; "fix baz"] nl)
     = unlines ["# v1.2.3"; "## Changes"; "fix bar"; "# v1.2.2"; "fix baz"].
Proof.
  split; [|split; vm_compute; reflexivity].
  intros st h body Hm Hh Hbody.
  assert (Hrun : forall st0, hasMetTheFirstVersionHeading st0 = true ->
            isInIgnoredSection st0 = true ->
            run st0 body = mkState (result st0) true true
            /\ emitted st0 body = []).
  { induction Hbody as [|l body Hl _ IH]; intros st0 Hm0 Hi0.
    - destruct st0; simpl in *; by subst.
    - assert (Hs : step st0 l = mkState (result st0) true true).
      { destruct Hl; [by apply step_header|by apply step_ignoring]. }
      rewrite run_cons. cbn [emitted]. rewrite Hs.
      destruct (IH (mkState (result st0) true true)) as [-> ->]; [done..|].
      split; [done|].
      unfold emits, isIgnoredHeader, isTopHeading. rewrite Hm0, Hi0.
      destruct Hl as [->| ->]; cbn; by rewrite ?andb_false_r. }
  rewrite run_cons. cbn [emitted]. rewrite step_header by done.
  destruct (Hrun (mkState (result st) true true)) as [-> ->]; [done..|].
  split; [done|]. split.
  - unfold emits, isIgnoredHeader. rewrite Hh. cbn. by rewrite andb_false_r.
  - intros l Hl. destruct (anyPrefix l ignoredSectionPrefixes) eqn:E.
    + by rewrite step_header.
    + by rewrite step_exit.
Qed.

Lemma C1_ignored_subsection_witness :
  run (mkState "# v1.0.0" true false) ["## Dependencies"; "### foo"; "- bar"]
  = mkState "# v1.0.0" true true.
Proof.
  apply (proj1 C1_ignored_subsection
           (mkState "# v1.0.0" true false) "## Dependencies"
           ["### foo"; "- bar"]).
  - reflexivity.
  - reflexivity.
  - repeat constructor; right; reflexivity.
Defined.

Lemma number_inv (s : string) :
  number s = true -> exists c pre, s = String c pre
                                   /\ allAccepted Digit (String c pre) = true.
Proof. destruct s as [|c pre]; [done|]. intros H. by exists c, pre. Qed.

(** The compiled pattern is [^# v\d\.\d+\.\d+]: it accepts exactly the lines
    that start with ["# v"], one digit, a dot, a number, a dot and a
    number. *)
Lemma changelogVersionLineRegexp_exact (line : string) :
  MatchString changelogVersionLineRegexp line = true <-> VersionHeading line.
Proof.
  unfold MatchString, changelogVersionLineRegexp, VersionHeading.
  cbn [beginText items endText]. split.
  - intros H.
    apply matchHere_One in H as (c1 & s1 & -> & H1 & H).
    apply matchHere_One in H as (c2 & s2 & -> & H2 & H).
    apply matchHere_One in H as (c3 & s3 & -> & H3 & H).
    apply matchHere_One in H as (d & s4 & -> & Hd & H).
    apply matchHere_One in H as (c5 & s5 & -> & H5 & H).
    apply matchHere_OneOrMore in H as (m & ms & s6 & -> & Hm & H).
    apply matchHere_One in H as (c7 & s7 & -> & H7 & H).
    apply matchHere_OneOrMore in H as (p & ps & rest & -> & Hp & _).
    cbn [accepts] in *.
    apply Ascii.eqb_eq in H1 as <-, H2 as <-, H3 as <-, H5 as <-, H7 as <-.
    exists d, (String m ms), (String p ps), rest.
    repeat split; done.
  - intros (d & minor & patch & rest & -> & Hd & Hm & Hp).
    apply number_inv in Hm as (m & ms & -> & Hm).
    apply number_inv in Hp as (p & ps & -> & Hp).
    apply matchHere_One. eexists _, _. split; [reflexivity|]. split; [done|].
    apply matchHere_One. eexists _, _. split; [reflexivity|]. split; [done|].
    apply matchHere_One. eexists _, _. split; [reflexivity|]. split; [done|].
    apply matchHere_One. eexists _, _. split; [reflexivity|]. split; [done|].
    apply matchHere_One. eexists _, _. split; [reflexivity|]. split; [done|].
    apply matchHere_OneOrMore. exists m, ms, (String.append "." (String.append (String p ps) rest)).
    split; [done|]. split; [done|].
    apply matchHere_One. eexists _, _. split; [reflexivity|]. split; [done|].
    apply matchHere_OneOrMore. by exists p, ps, rest.
Qed.

Lemma VersionHeading_shaped (line : string) :
  VersionHeading line -> VersionShaped line.
Proof.
  intros (d & minor & patch & rest & -> & Hd & Hm & Hp).
  exists (String d ""), minor, patch, rest.
  repeat split; try done. simpl. by rewrite Hd.
Qed.

(** C2, as the code has it.  A line is accepted only if it starts with
    ["# v"] (one space after the marker, the [v] required) followed by a
    number, a dot, a number, a dot and a number; and every such line whose
    first number is a single digit is accepted. *)
Theorem C2_version_heading_pattern (line : string) :
  (MatchString changelogVersionLineRegexp line = true -> VersionShaped line)
  /\ (VersionHeading line ->
      MatchString changelogVersionLineRegexp line = true).
Proof.
  split.
  - intros H. by apply VersionHeading_shaped, changelogVersionLineRegexp_exact.
  - apply changelogVersionLineRegexp_exact.
Qed.

(** C2, as stated, fails: the pattern of the specification accepts a
    heading without the [v], or without the space, and the compiled pattern
    accepts neither. *)
Lemma C2_counterexample :
  (MatchString specVersionLinePattern "# 1.2.3" = true
   /\ MatchString changelogVersionLineRegexp "# 1.2.3" = false)
  /\ (MatchString specVersionLinePattern "#v1.2.3" = true
      /\ MatchString changelogVersionLineRegexp "#v1.2.3" = false).
Proof. vm_compute. repeat split. Qed.

(** The first component is one digit in the compiled pattern ([\d]), where
    [kubernetesMinorVersionRegexp] takes several ([\d+]). *)
Lemma two_digit_major_rejected :
  MatchString kubernetesMinorVersionRegexp "10.1" = true
  /\ MatchString changelogVersionLineRegexp "# v10.1.0" = false
  /\ MatchString specVersionLinePattern "# v10.1.0" = true.
Proof. vm_compute. by repeat split. Qed.

(** The compiled pattern accepts ["# v1.33.0 and more"]. *)
Lemma C2_version_heading_pattern_witness :
  MatchString changelogVersionLineRegexp "# v1.33.0 and more" = true.
Proof.
  apply (proj2 (C2_version_heading_pattern "# v1.33.0 and more")).
  exists "1"%char, "33", "0", " and more". repeat split; reflexivity.
Defined.

(** C3, as the code has it.  When the filtered output still contains a
    version heading, filtering it again returns the same text followed by
    one more line terminator: the output ends with a terminator, so its last
    split segment is empty, and that empty line is emitted. *)
Theorem C3_refilter_appends_newline (t : string) :
  hasVersionHeading (keepOnlyChanges t) = true ->
  keepOnlyChanges (keepOnlyChanges t) = String.append (keepOnlyChanges t) nl.
Proof.
  intros H. apply keepOnlyChanges_twice. intros E.
  rewrite E in H. discriminate H.
Qed.

Lemma C3_refilter_appends_newline_witness :
  keepOnlyChanges (keepOnlyChanges "# v1.2.3")
  = String.append (keepOnlyChanges "# v1.2.3") nl.
Proof.
  apply (C3_refilter_appends_newline "# v1.2.3"). vm_compute. reflexivity.
Defined.

(** C3, as stated, fails on the one-line changelog ["# v1.2.3"]: its
    filtered output contains the version heading, and filtering that output
    again does not return it unchanged. *)
Lemma C3_counterexample :
  hasVersionHeading (keepOnlyChanges "# v1.2.3") = true
  /\ keepOnlyChanges (keepOnlyChanges "# v1.2.3")
     <> keepOnlyChanges "# v1.2.3".
Proof. split; [vm_compute; reflexivity|]. vm_compute. discriminate. Qed.

Lemma anyPrefix_false (line : string) (prefixes : list string) :
  anyPrefix line prefixes = false <->
  forall p, p ∈ prefixes -> HasPrefix line p = false.
Proof.
  induction prefixes as [|q prefixes IH]; simpl.
  - split; [|done]. intros _ p Hp. by apply elem_of_nil in Hp.
  - destruct (HasPrefix line q) eqn:E.
    + split; [done|]. intros H. rewrite <-E. apply H. by left.
    + rewrite IH. split.
      * intros H p [->|Hp]%elem_of_cons; [done|by apply H].
      * intros H p Hp. apply H. by right.
Qed.

(** C4. No line of the output starts with an ignored prefix, and a line that
    starts with one is never written, whatever the state of the loop. *)
Theorem C4_no_ignored_prefix_in_output :
  (forall (t line prefix : string),
     line ∈ Split (keepOnlyChanges t) "010" ->
     prefix ∈ ignoredSectionPrefixes ->
     HasPrefix line prefix = false)
  /\ (forall (st : LoopState) (line : string),
        anyPrefix line ignoredSectionPrefixes = true ->
        result (step st line) = result st).
Proof.
  split.
  - intros t line prefix Hl Hp.
    rewrite keepOnlyChanges_Split in Hl.
    apply elem_of_app in Hl as [Hl|Hl].
    + pose proof (emitted_not_ignored initial (Split t "010")) as Hn.
      rewrite Forall_forall in Hn.
      by apply (proj1 (anyPrefix_false line ignoredSectionPrefixes) (Hn _ Hl)).
    + apply list_elem_of_singleton in Hl as ->.
      revert Hp. unfold ignoredSectionPrefixes.
      rewrite !elem_of_cons, elem_of_nil. by intros [->|[->|[]]].
  - intros st line H. rewrite step_result. unfold emits, isIgnoredHeader.
    rewrite H. cbn. by rewrite andb_false_r.
Qed.

Lemma C4_no_ignored_prefix_in_output_witness :
  HasPrefix "## Changes" "## Dependencies" = false.
Proof.
  apply (proj1 C4_no_ignored_prefix_in_output
           (Join ["# v1.0.0"; "## Dependencies"; "x"; "## Changes"] nl)).
  - vm_compute. do 1 right. left.
  - left.
Defined.

(** C5. If [h] is the first line of the text that matches the version
    pattern, the lines before it write nothing, and the output starts with
    [h] and its terminator: [h] is the first line of the output. *)
Theorem C5_first_emitted_line (t : string) (pre : list string) (h : string)
    (post : list string) :
  Split t "010" = pre ++ h :: post ->
  Forall (fun l => MatchString changelogVersionLineRegexp l = false) pre ->
  MatchString changelogVersionLineRegexp h = true ->
  result (run initial pre) = ""
  /\ emitted initial pre = []
  /\ head (emitted initial (Split t "010")) = Some h
  /\ head (Split (keepOnlyChanges t) "010") = Some h
  /\ exists rest, keepOnlyChanges t
                  = String.append h (String.append nl rest).
Proof.
  intros Ht Hpre Hh.
  assert (Hnone : emitted initial pre = []).
  { clear Ht. induction Hpre as [|l pre Hl _ IH]; [done|].
    cbn [emitted]. rewrite step_seeking by done.
    unfold emits, isVersionLine. by rewrite Hl. }
  assert (Hem : emitted initial (Split t "010")
                = h :: emitted (step initial h) post).
  { rewrite Ht, emitted_app, Hnone, run_seeking by done.
    cbn [emitted app]. unfold emits, isVersionLine. rewrite Hh.
    by rewrite (version_line_not_ignored h Hh). }
  split; [by rewrite run_seeking|]. split; [done|]. split; [by rewrite Hem|].
  split.
  - by rewrite keepOnlyChanges_Split, Hem.
  - rewrite keepOnlyChanges_unlines, Hem. by eexists.
Qed.

Lemma C5_first_emitted_line_witness :
  head (Split (keepOnlyChanges (Join ["intro"; "# v1.2.3"; "fix"] nl)) "010")
  = Some "# v1.2.3".
Proof.
  apply (C5_first_emitted_line
           (Join ["intro"; "# v1.2.3"; "fix"] nl) ["intro"] "# v1.2.3" ["fix"]).
  - reflexivity.
  - repeat constructor.
  - reflexivity.
Defined.

(** C7. The lines of the output are a subsequence of the lines of the input,
    in the same order; each is written unchanged and followed by the
    terminator, so that splitting the output gives these lines back (and the
    empty segment after the last terminator). *)
Theorem C7_output_is_subsequence (t : string) :
  exists kept : list string,
    kept `sublist_of` Split t "010"
    /\ keepOnlyChanges t = unlines kept
    /\ Split (keepOnlyChanges t) "010" = kept ++ [""].
Proof.
  exists (emitted initial (Split t "010")).
  split; [apply emitted_sublist|].
  split; [apply keepOnlyChanges_unlines|apply keepOnlyChanges_Split].
Qed.

(** C8. Without a version heading the output is empty; the filter is a
    function from texts to texts, with a result for every text. *)
Theorem C8_no_version_heading_empty :
  (forall t : string,
     Forall (fun l => MatchString changelogVersionLineRegexp l = false)
       (Split t "010") ->
     keepOnlyChanges t = "")
  /\ (forall t : string, exists out : string, keepOnlyChanges t = out).
Proof.
  split.
  - intros t H. unfold keepOnlyChanges. by rewrite run_seeking.
  - intros t. by eexists.
Qed.

Lemma C8_no_version_heading_empty_witness :
  keepOnlyChanges (Join ["intro"; "## Dependencies"; "#v1.2.3"] nl) = "".
Proof.
  apply (proj1 C8_no_version_heading_empty). repeat constructor.
Defined.

Lemma unlines_ends (ks : list string) :
  ks = [] \/ exists body, unlines ks = String.append body nl.
Proof.
  destruct ks as [|k ks _] using rev_ind; [by left|right].
  rewrite unlines_app. cbn [unlines].
  exists (String.append (unlines ks) k).
  by rewrite append_nil_r, append_assoc.
Qed.

(** C10. Every emitted line is followed by ["\n"], the last one too: the
    output is empty or ends with ["\n"].  When the loop is emitting at the
    end of a text, the same text followed by ["\n"] gives one more ["\n"] in
    the output, for the empty last segment. *)
Theorem C10_terminators (t : string) :
  (exists kept, keepOnlyChanges t = unlines kept)
  /\ (keepOnlyChanges t = ""
      \/ exists body, keepOnlyChanges t = String.append body nl)
  /\ (hasMetTheFirstVersionHeading (run initial (Split t "010")) = true ->
      isInIgnoredSection (run initial (Split t "010")) = false ->
      keepOnlyChanges (String.append t nl)
      = String.append (keepOnlyChanges t) nl).
Proof.
  split; [by eexists; apply keepOnlyChanges_unlines|]. split.
  - rewrite keepOnlyChanges_unlines.
    destruct (unlines_ends (emitted initial (Split t "010"))) as [->|H];
      [by left|by right].
  - intros Hm Hi. unfold keepOnlyChanges, Split, nl.
    rewrite splitFrom_snoc, run_app, run_cons. cbn [run fold_left].
    rewrite step_emitting by done. cbn [result].
    by change (String.append "" nl) with nl.
Qed.

Lemma C10_terminators_witness :
  keepOnlyChanges (String.append "# v1.2.3" nl)
  = String.append (keepOnlyChanges "# v1.2.3") nl.
Proof.
  apply (proj2 (proj2 (C10_terminators "# v1.2.3"))); reflexivity.
Defined.

End changelog_claims.

(** ** Trees *)

Section tree_facts.
Import strings html cascadia goquery gkereleasenotes.

Lemma addrs_unfold (n : Node) :
  addrs n = addr n :: flat_map addrs (children n).
Proof. by destruct n. Qed.

Lemma subtree_unfold (n : Node) :
  subtree n = n :: flat_map subtree (children n).
Proof. by destruct n. Qed.

Lemma elem_of_flat_map {A B} (f : A -> list B) (l : list A) (y : B) :
  y ∈ flat_map f l <-> exists x, x ∈ l /\ y ∈ f x.
Proof.
  rewrite list_elem_of_In, in_flat_map.
  split; intros (x & H1 & H2); exists x; by rewrite ?list_elem_of_In in *.
Qed.

(** The addresses of a subtree are addresses of the tree. *)
Lemma subtree_addrs (n g : Node) (x : nat) :
  g ∈ subtree n -> x ∈ addrs g -> x ∈ addrs n.
Proof.
  revert g x. induction n as [a t d at_ kids IH] using Node_ind.
  intros g x. rewrite subtree_unfold, (addrs_unfold (mkNode _ _ _ _ _)).
  cbn [children addr].
  intros [->|Hg]%elem_of_cons Hx; [by rewrite addrs_unfold in Hx|].
  right. apply elem_of_flat_map in Hg as (c & Hc & Hg).
  apply elem_of_flat_map. exists c. split; [done|].
  rewrite Forall_forall in IH. by apply (IH c Hc g).
Qed.

Lemma addr_in_addrs (n : Node) : addr n ∈ addrs n.
Proof. rewrite addrs_unfold. by left. Qed.

Lemma subtree_addr (n g : Node) : g ∈ subtree n -> addr g ∈ addrs n.
Proof. intros H. eapply subtree_addrs; [done|apply addr_in_addrs]. Qed.

(** *** Unlinking *)

Lemma addr_RemoveChild (a : nat) (n : Node) : addr (RemoveChild a n) = addr n.
Proof. by destruct n. Qed.

Lemma isType_unlinkAll (t : NodeType) (dead : list nat) (n : Node) :
  isType t (unlinkAll dead n) = isType t n.
Proof. by destruct n. Qed.

Lemma unlinkAll_nil (n : Node) : unlinkAll [] n = n.
Proof.
  induction n as [a t d at_ kids IH] using Node_ind. simpl. f_equal.
  induction IH as [|c kids Hc _ IHk]; [done|]. simpl. by rewrite Hc, IHk.
Qed.

(** Unlinking one node, then others, unlinks them all. *)
Lemma unlinkAll_RemoveChild (a : nat) (dead : list nat) (n : Node) :
  unlinkAll dead (RemoveChild a n) = unlinkAll (a :: dead) n.
Proof.
  induction n as [x t d at_ kids IH] using Node_ind. simpl. f_equal.
  induction IH as [|c kids Hc _ IHk]; [done|].
  simpl. rewrite <-IHk, flat_map_app.
  destruct (addr c =? a)%nat; [done|].
  simpl. by rewrite addr_RemoveChild, Hc, app_nil_r.
Qed.

Lemma Remove_unlinkAll (root : Node) (s : Selection) :
  Remove root s = unlinkAll (map addr s) root.
Proof.
  unfold Remove. revert root.
  induction s as [|g s IH]; intros root; simpl.
  - by rewrite unlinkAll_nil.
  - by rewrite IH, unlinkAll_RemoveChild.
Qed.

Lemma unlinkAll_addrs (dead : list nat) (n : Node) :
  addrs (unlinkAll dead n) `sublist_of` addrs n.
Proof.
  induction n as [x t d at_ kids IH] using Node_ind. simpl.
  apply sublist_skip.
  induction IH as [|c kids Hc _ IHk]; [done|]. simpl.
  destruct (existsb _ dead); simpl.
  - by apply sublist_inserts_l.
  - by apply sublist_app.
Qed.

Lemma existsb_eqb_elem (a : nat) (l : list nat) :
  existsb (Nat.eqb a) l = true <-> a ∈ l.
Proof.
  rewrite existsb_exists. split.
  - intros (x & Hx & ->%Nat.eqb_eq). by apply list_elem_of_In.
  - intros H. exists a. split; [by apply list_elem_of_In|apply Nat.eqb_refl].
Qed.

(** In a tree without shared addresses, nothing of an unlinked subtree is
    left: if [g] is strictly below [n] and its address is in [dead], no
    address of [g] is an address of [unlinkAll dead n]. *)
Lemma unlinkAll_gone (dead : list nat) (n g : Node) (x : nat) :
  NoDup (addrs n) ->
  g ∈ flat_map subtree (children n) ->
  addr g ∈ dead ->
  x ∈ addrs g ->
  x ∉ addrs (unlinkAll dead n).
Proof.
  revert g x. induction n as [a t d at_ kids IH] using Node_ind.
  intros g x Hnd Hg Hdead Hx. simpl in *.
  apply NoDup_cons in Hnd as [Ha Hnd].
  assert (Hkids : x ∈ flat_map addrs kids).
  { apply elem_of_flat_map in Hg as (c & Hc & Hg).
    apply elem_of_flat_map. exists c. split; [done|]. by eapply subtree_addrs. }
  apply not_elem_of_cons. split; [by intros ->|].
  clear Ha Hkids a t d at_.
  induction IH as [|c kids Hc _ IHk]; [by apply not_elem_of_nil|].
  simpl in *. apply NoDup_app in Hnd as (Hndc & Hdisj & Hndk).
  apply elem_of_app in Hg as [Hg|Hg].
  - (* [g] is in the first child *)
    pose proof (subtree_addrs _ _ _ Hg Hx) as Hxc.
    assert (Hrest : x ∉ flat_map addrs
              (flat_map (fun c0 => if existsb (Nat.eqb (addr c0)) dead then []
                                   else [unlinkAll dead c0]) kids)).
    { intros Hin. apply (Hdisj x Hxc).
      apply elem_of_flat_map in Hin as (c' & Hc' & Hin).
      apply elem_of_flat_map in Hc' as (k & Hk & Hc').
      apply elem_of_flat_map. exists k. split; [done|].
      destruct (existsb _ dead); [by apply elem_of_nil in Hc'|].
      apply list_elem_of_singleton in Hc' as ->.
      eapply elem_of_sublist; [done|apply unlinkAll_addrs]. }
    destruct (existsb (Nat.eqb (addr c)) dead) eqn:E; [done|].
    simpl. apply not_elem_of_app. split; [|done].
    rewrite subtree_unfold in Hg. apply elem_of_cons in Hg as [->|Hg].
    + apply existsb_eqb_elem in Hdead. by rewrite Hdead in E.
    + by apply (Hc g).
  - (* [g] is in a later child *)
    assert (Hxk : x ∈ flat_map addrs kids).
    { apply elem_of_flat_map in Hg as (k & Hk & Hg).
      apply elem_of_flat_map. exists k. split; [done|]. by eapply subtree_addrs. }
    destruct (existsb (Nat.eqb (addr c)) dead); simpl; [by apply IHk|].
    apply not_elem_of_app. split; [|by apply IHk].
    intros Hin. apply (Hdisj x); [|done].
    eapply elem_of_sublist; [done|apply unlinkAll_addrs].
Qed.

(** *** Selections *)

Lemma appendWithoutDuplicates_elem (target nodes : list Node) (x : Node) :
  x ∈ appendWithoutDuplicates target nodes -> x ∈ target \/ x ∈ nodes.
Proof.
  unfold appendWithoutDuplicates. revert target.
  induction nodes as [|n nodes IH]; intros target; simpl; [by left|].
  intros [H|H]%IH; [|by right; right].
  destruct (isInSlice target n); [by left|].
  apply elem_of_app in H as [H|H]; [by left|].
  apply list_elem_of_singleton in H as ->. right. by left.
Qed.

Lemma mapNodes_elem (nodes : list Node) (f : Node -> list Node) (x : Node) :
  x ∈ mapNodes nodes f -> exists n, n ∈ nodes /\ x ∈ f n.
Proof.
  unfold mapNodes.
  assert (H : forall acc,
            x ∈ fold_left (fun result n => appendWithoutDuplicates result (f n))
                  nodes acc ->
            x ∈ acc \/ exists n, n ∈ nodes /\ x ∈ f n).
  { induction nodes as [|n nodes IH]; intros acc; simpl; [by left|].
    intros [[H|H]%appendWithoutDuplicates_elem|(n' & Hn' & H)]%IH.
    - by left.
    - right. exists n. split; [by left|done].
    - right. exists n'. split; [by right|done]. }
  intros [Hx|Hx]%H; [by apply elem_of_nil in Hx|done].
Qed.

Lemma MatchAll_elem (m : Matcher) (n x : Node) :
  x ∈ MatchAll m n -> x ∈ subtree n /\ m x = true.
Proof.
  revert x. induction n as [a t d at_ kids IH] using Node_ind. intros x.
  rewrite subtree_unfold. simpl. intros [H|H]%elem_of_app.
  - destruct (m (mkNode a t d at_ kids)) eqn:E; [|by apply elem_of_nil in H].
    apply list_elem_of_singleton in H as ->. split; [by left|done].
  - apply elem_of_flat_map in H as (c & Hc & H).
    rewrite Forall_forall in IH. destruct (IH c Hc x H) as [Hs Hm].
    split; [|done]. right. apply elem_of_flat_map. by exists c.
Qed.

(** What [doc.Find] selects is strictly below the root, and matches. *)
Lemma Find_elem (root : Node) (m : Matcher) (x : Node) :
  x ∈ Find [root] m ->
  x ∈ flat_map subtree (children root) /\ m x = true.
Proof.
  intros (n & ->%list_elem_of_singleton & H)%mapNodes_elem.
  apply elem_of_flat_map in H as (c & Hc & H).
  destruct (isType ElementNode c); [|by apply elem_of_nil in H].
  apply MatchAll_elem in H as [Hs Hm]. split; [|done].
  apply elem_of_flat_map. by exists c.
Qed.

Lemma below_subtree (n x : Node) :
  x ∈ flat_map subtree (children n) -> x ∈ subtree n.
Proof. rewrite (subtree_unfold n). by right. Qed.

Lemma head_flat_map_Some {A B} (f : A -> list B) (l : list A) (y : B) :
  head (flat_map f l) = Some y -> exists x, x ∈ l /\ y ∈ f x.
Proof.
  intros H. apply elem_of_flat_map.
  destruct (flat_map f l) as [|z r]; [done|].
  injection H as ->. by left.
Qed.

(** The parent found is a node of the tree with a child at the address. *)
Lemma parentOf_elem (root : Node) (a : nat) (p : Node) :
  parentOf root a = Some p ->
  p ∈ subtree root /\ exists c, c ∈ children p /\ addr c = a.
Proof.
  revert p. induction root as [x t d at_ kids IH] using Node_ind. intros p.
  rewrite subtree_unfold. simpl.
  destruct (existsb _ kids) eqn:E.
  - intros [= <-]. split; [by left|].
    apply existsb_exists in E as (c & Hc & Heq%Nat.eqb_eq).
    exists c. by rewrite list_elem_of_In.
  - intros (c & Hc & H)%head_flat_map_Some.
    destruct (parentOf c a) as [q|] eqn:Eq; [|by apply elem_of_nil in H].
    apply list_elem_of_singleton in H as <-.
    rewrite Forall_forall in IH. destruct (IH c Hc p Eq) as [Hs Hch].
    split; [|done]. right. apply elem_of_flat_map. by exists c.
Qed.

Lemma Parent_elem (root : Node) (s : Selection) (p : Node) :
  p ∈ Parent root s ->
  exists n, n ∈ s /\ parentOf root (addr n) = Some p
            /\ isType ElementNode p = true.
Proof.
  intros (n & Hn & H)%mapNodes_elem. exists n. split; [done|].
  destruct (parentOf root (addr n)) as [q|]; [|by apply elem_of_nil in H].
  destruct (isType ElementNode q) eqn:E; [|by apply elem_of_nil in H].
  by apply list_elem_of_singleton in H as ->.
Qed.

(** What an exclusion rule removes is an element strictly below the
    document node. *)
Lemma removed_below (doc : Node) (m : Matcher) (g : Node) :
  isType DocumentNode doc = true ->
  g ∈ removed doc m ->
  g ∈ flat_map subtree (children doc).
Proof.
  intros Hdoc (n & _ & [Hg _]%parentOf_elem & He)%Parent_elem.
  rewrite subtree_unfold in Hg. apply elem_of_cons in Hg as [->|Hg]; [|done].
  unfold isType in *. by destruct (Type_ doc).
Qed.

(** After an exclusion rule nothing of a removed subtree is left. *)
Lemma removeGrandparents_gone (doc : Node) (m : Matcher) (g : Node) (x : nat) :
  wellFormed doc ->
  g ∈ removed doc m ->
  x ∈ addrs g ->
  x ∉ addrs (removeGrandparents doc m).
Proof.
  intros [Hdoc Hnd] Hg Hx. unfold removeGrandparents.
  rewrite Remove_unlinkAll.
  apply (unlinkAll_gone _ doc g); [done|by eapply removed_below| |done].
  apply list_elem_of_fmap. by exists g.
Qed.

Lemma removeGrandparents_wellFormed (doc : Node) (m : Matcher) :
  wellFormed doc -> wellFormed (removeGrandparents doc m).
Proof.
  intros [Hdoc Hnd]. unfold removeGrandparents. rewrite Remove_unlinkAll.
  split; [by rewrite isType_unlinkAll|].
  eapply sublist_NoDup; [done|apply unlinkAll_addrs].
Qed.

Lemma removeGrandparents_addrs (doc : Node) (m : Matcher) :
  addrs (removeGrandparents doc m) `sublist_of` addrs doc.
Proof.
  unfold removeGrandparents. rewrite Remove_unlinkAll. apply unlinkAll_addrs.
Qed.

(** The builder holds the texts of the selected nodes, in order. *)
Lemma releaseText_concat (doc : Node) :
  releaseText doc
  = String.concat "" (map nodeText (Find [pruned doc] releases)).
Proof.
  unfold releaseText.
  assert (H : forall (l : list Node) (acc : string),
            fold_left (fun result s => WriteString result (Text [s])) l acc
            = String.append acc (String.concat "" (map nodeText l))).
  { induction l as [|s l IH]; intros acc; simpl.
    - by rewrite append_nil_r.
    - rewrite IH. unfold WriteString, Text. simpl. rewrite append_assoc.
      f_equal. destruct l; simpl; [by rewrite append_nil_r|done]. }
  by rewrite H.
Qed.

(** *** Parents *)

Lemma child_addr (p c : Node) : c ∈ children p -> addr c ∈ flat_map addrs (children p).
Proof. intros H. apply elem_of_flat_map. exists c. split; [done|apply addr_in_addrs]. Qed.

Lemma parentOf_child (root c : Node) :
  c ∈ children root -> parentOf root (addr c) = Some root.
Proof.
  intros Hc. destruct root as [x t d at_ kids]. simpl in *.
  assert (E : existsb (fun c0 => addr c0 =? addr c)%nat kids = true).
  { apply existsb_exists. exists c. split; [by apply list_elem_of_In|].
    apply Nat.eqb_refl. }
  by rewrite E.
Qed.

Lemma parentOf_None (k : Node) (a : nat) : a ∉ addrs k -> parentOf k a = None.
Proof.
  intros Ha. destruct (parentOf k a) as [p|] eqn:E; [|done].
  apply parentOf_elem in E as [Hp (c & Hc & <-)].
  destruct Ha. apply (subtree_addrs k p); [done|].
  rewrite addrs_unfold. right. by apply child_addr.
Qed.

Lemma NoDup_child (kids : list Node) (q : Node) :
  NoDup (flat_map addrs kids) -> q ∈ kids -> NoDup (addrs q).
Proof.
  induction kids as [|k kids IH]; intros Hnd Hq; [by apply elem_of_nil in Hq|].
  simpl in Hnd. apply NoDup_app in Hnd as (Hk & _ & Hkids).
  apply elem_of_cons in Hq as [->|Hq]; [done|by apply IH].
Qed.

(** Two children that share an address are the same child. *)
Lemma siblings_disjoint (kids : list Node) (c q : Node) (x : nat) :
  NoDup (flat_map addrs kids) ->
  c ∈ kids -> q ∈ kids -> x ∈ addrs c -> x ∈ addrs q -> c = q.
Proof.
  induction kids as [|k kids IH]; intros Hnd Hc Hq Hxc Hxq;
    [by apply elem_of_nil in Hc|].
  simpl in Hnd. apply NoDup_app in Hnd as (Hk & Hdisj & Hkids).
  apply elem_of_cons in Hc as [->|Hc], Hq as [->|Hq]; [done| | |by apply IH].
  - destruct (Hdisj x Hxc). apply elem_of_flat_map. by exists q.
  - destruct (Hdisj x Hxq). apply elem_of_flat_map. by exists c.
Qed.

(** In a tree without shared addresses, the parent of a child of a child of
    the root is that child. *)
Lemma parentOf_grandchild (root q a : Node) :
  NoDup (addrs root) ->
  q ∈ children root -> a ∈ children q ->
  parentOf root (addr a) = Some q.
Proof.
  intros Hnd Hq Ha. destruct root as [x t d at_ kids]. simpl in *.
  apply NoDup_cons in Hnd as [_ Hnd].
  pose proof (child_addr _ _ Ha) as Haq.
  assert (Hin : addr a ∈ addrs q) by (rewrite addrs_unfold; by right).
  assert (E : existsb (fun c => addr c =? addr a)%nat kids = false).
  { destruct (existsb _ kids) eqn:E; [|done].
    apply existsb_exists in E as (c & Hc%list_elem_of_In & Heq%Nat.eqb_eq).
    assert (c = q) as ->.
    { apply (siblings_disjoint kids c q (addr a)); try done.
      rewrite <-Heq. apply addr_in_addrs. }
    pose proof (NoDup_child _ _ Hnd Hq) as Hndq.
    rewrite addrs_unfold in Hndq. apply NoDup_cons in Hndq as [Hfresh _].
    by rewrite Heq in Hfresh. }
  rewrite E. clear E.
  induction kids as [|k kids IH]; [by apply elem_of_nil in Hq|].
  simpl in *. apply NoDup_app in Hnd as (Hk & Hdisj & Hkids).
  apply elem_of_cons in Hq as [->|Hq].
  - by rewrite (parentOf_child k a Ha).
  - rewrite parentOf_None; [by apply IH|].
    intros Hak. apply (Hdisj _ Hak). apply elem_of_flat_map. by exists q.
Qed.

Lemma not_document_element (n : Node) :
  isType DocumentNode n = true -> isType ElementNode n = true -> False.
Proof. unfold isType. by destruct (Type_ n). Qed.

(** An anchor without two element ancestors gives no node to remove. *)
Lemma shallow_selection (doc : Node) (s : Selection) :
  wellFormed doc ->
  (forall a, a ∈ s -> fewerThanTwoAncestors doc a) ->
  Parent doc (Parent doc s) = [].
Proof.
  intros [Hdoc Hnd] Hs. apply elem_of_nil_inv. intros g Hg.
  apply Parent_elem in Hg as (p & Hp & Hpg & Hge).
  apply Parent_elem in Hp as (a & Ha & Hap & Hpe).
  assert (Htop : p ∈ children doc).
  { destruct (Hs a Ha) as [Hc|(q & Hq & Hc)].
    - rewrite (parentOf_child doc a Hc) in Hap. injection Hap as <-.
      destruct (not_document_element doc Hdoc Hpe).
    - rewrite (parentOf_grandchild doc q a Hnd Hq Hc) in Hap.
      by injection Hap as <-. }
  rewrite (parentOf_child doc p Htop) in Hpg. injection Hpg as <-.
  destruct (not_document_element doc Hdoc Hge).
Qed.

End tree_facts.

(** ** The release-notes extractor: the stated properties *)

Section extractor_claims.
Import strings html cascadia goquery gkereleasenotes.

Lemma page_wellFormed (old new : string) : wellFormed (page old new).
Proof.
  split; [done|]. apply (bool_decide_unpack _). by vm_compute.
Qed.

(** C6, as the code has it.  In a parsed document, no node of a subtree
    removed by one of the two exclusion rules, release block or not, is left
    in the tree on which the release blocks are searched, and none is
    visited when their text is written; the output is the concatenation of
    the texts of the release blocks found in that tree.  In the scenario of
    the specification the output is the text of the block outside the
    removed section. *)
Theorem C6_removed_subtrees_not_emitted :
  (forall (doc g x : Node),
     wellFormed doc ->
     (g ∈ removed doc versionUpdates)
     \/ (g ∈ removed (removeGrandparents doc versionUpdates) securityUpdates) ->
     x ∈ subtree g ->
     (addr x ∉ addrs (pruned doc))
     /\ forall s, s ∈ Find [pruned doc] releases -> addr x ∉ addrs s)
  /\ (forall doc : Node,
        releaseText doc
        = String.concat "" (map nodeText (Find [pruned doc] releases)))
  /\ (forall old new : string, releaseText (page old new) = new).
Proof.
  split; [|split; [apply releaseText_concat|]].
  - intros doc g x Hwf Hg Hx.
    pose proof (subtree_addr _ _ Hx) as Hxa.
    assert (Hgone : addr x ∉ addrs (pruned doc)).
    { unfold pruned. destruct Hg as [Hg|Hg].
      - intros Hin.
        apply (removeGrandparents_gone doc versionUpdates g (addr x)); try done.
        eapply elem_of_sublist; [done|apply removeGrandparents_addrs].
      - apply (removeGrandparents_gone _ securityUpdates g); try done.
        by apply removeGrandparents_wellFormed. }
    split; [done|]. intros s [Hs _]%Find_elem Hin.
    apply Hgone. apply (subtree_addrs _ s); [by apply below_subtree|done].
  - intros old new. vm_compute. apply append_nil_r.
Qed.

Lemma C6_removed_subtrees_not_emitted_witness :
  addr (excludedBlock "old") ∉ addrs (pruned (page "old" "new")).
Proof.
  assert (Hwf : wellFormed (page "old" "new")) by apply page_wellFormed.
  assert (Hg : (excludedSection "old" ∈ removed (page "old" "new") versionUpdates)
               \/ (excludedSection "old"
                     ∈ removed (removeGrandparents (page "old" "new") versionUpdates)
                         securityUpdates))
    by (left; vm_compute; left).
  assert (Hx : excludedBlock "old" ∈ subtree (excludedSection "old"))
    by (vm_compute; do 4 right; left).
  exact (proj1 (proj1 C6_removed_subtrees_not_emitted _ _ _ Hwf Hg Hx)).
Defined.

(** C6, as stated, fails when a release block that stays has the text of a
    release block that goes: the rule removes the section, the block in it
    matches the release selector, and its text is a substring of the
    output. *)
Lemma C6_counterexample :
  removed (page "Fixed." "Fixed.") versionUpdates = [excludedSection "Fixed."]
  /\ excludedBlock "Fixed." ∈ subtree (excludedSection "Fixed.")
  /\ releases (excludedBlock "Fixed.") = true
  /\ nodeText (excludedBlock "Fixed.") = "Fixed."
  /\ releaseText (page "Fixed." "Fixed.") = "Fixed."
  /\ Contains (releaseText (page "Fixed." "Fixed."))
       (nodeText (excludedBlock "Fixed.")) = true.
Proof.
  repeat split; try (vm_compute; reflexivity).
  vm_compute. do 4 right. left.
Qed.

(** C9. The extractor has no error of its own: once [lynx] and the parser
    have succeeded the result is a text.  An anchor that is a child of the
    document node, or a child of such a child, gives no node to remove, and
    a rule whose anchors are all of this kind leaves the document as it is;
    a node is removed only as the parent of the parent of an anchor.  When no
    release block is found the text is empty. *)
Theorem C9_no_internal_error :
  (forall (out : string) (parse : string -> outcome Node) (doc : Node),
     parse out = ok doc ->
     getGkeReleaseNotes (ok out) parse = ok (releaseText doc))
  /\ (forall (doc a : Node),
        wellFormed doc -> fewerThanTwoAncestors doc a ->
        Parent doc (Parent doc [a]) = [])
  /\ (forall (doc : Node) (m : Matcher),
        wellFormed doc ->
        (forall a, a ∈ Find [doc] m -> fewerThanTwoAncestors doc a) ->
        removed doc m = [] /\ removeGrandparents doc m = doc)
  /\ (forall (doc : Node) (m : Matcher) (g : Node),
        g ∈ removed doc m ->
        exists a p, a ∈ Find [doc] m
                    /\ parentOf doc (addr a) = Some p
                    /\ parentOf doc (addr p) = Some g)
  /\ (forall doc : Node,
        Find [pruned doc] releases = [] -> releaseText doc = "").
Proof.
  split; [|split; [|split; [|split]]].
  - intros out parse doc H. unfold getGkeReleaseNotes. by rewrite H.
  - intros doc a Hwf Ha. apply shallow_selection; [done|].
    by intros ? ->%list_elem_of_singleton.
  - intros doc m Hwf Hshallow.
    assert (E : removed doc m = []) by by apply shallow_selection.
    split; [done|]. unfold removeGrandparents. fold (removed doc m).
    by rewrite E.
  - intros doc m g (p & Hp & Hpg & _)%Parent_elem.
    apply Parent_elem in Hp as (a & Ha & Hap & _). by exists a, p.
  - intros doc H. unfold releaseText. by rewrite H.
Qed.

Lemma C9_no_internal_error_witness :
  removeGrandparents
    (document [element 1 "html" []
                 [element 2 "body" [mkAttribute "data-text" "Version updates"]
                    [text 3 "x"]]])
    versionUpdates
  = document [element 1 "html" []
                [element 2 "body" [mkAttribute "data-text" "Version updates"]
                   [text 3 "x"]]].
Proof.
  apply (proj1 (proj2 (proj2 C9_no_internal_error))).
  - split; [done|]. apply (bool_decide_unpack _). by vm_compute.
  - intros a Ha. vm_compute in Ha.
    apply list_elem_of_singleton in Ha as ->.
    right. eexists. split; [left|left].
Defined.

End extractor_claims.

(** ** White space *)

Section trim_facts.
Import strings regexp.

Lemma digit_cases (c : ascii) :
  isDigit c = true ->
  c = "0"%char \/ c = "1"%char \/ c = "2"%char \/ c = "3"%char
  \/ c = "4"%char \/ c = "5"%char \/ c = "6"%char \/ c = "7"%char
  \/ c = "8"%char \/ c = "9"%char.
Proof.
  destruct c as [[] [] [] [] [] [] [] []]; intros H;
    try (vm_compute in H; discriminate H); tauto.
Qed.

(** A digit starts no white-space rune and ends none. *)
Lemma digit_not_space (c : ascii) :
  isDigit c = true ->
  asciiSpace c = false
  /\ (forall d, isSpace2 c d = false)
  /\ (forall d, isSpace2 d c = false)
  /\ (forall d e, isSpace3 c d e = false)
  /\ (forall d e, isSpace3 e d c = false).
Proof.
  intros H.
  repeat split; intros; unfold isSpace2, isSpace3;
    destruct (digit_cases c H) as [->|[->|[->|[->|[->|[->|[->|[->|[->| ->]]]]]]]]];
    try reflexivity;
    repeat match goal with
           | |- context [Ascii.eqb ?x ?y] =>
               is_var x; destruct (Ascii.eqb x y)
           end; reflexivity.
Qed.

Lemma trimLeft_digit (c : ascii) (r : string) :
  isDigit c = true -> trimLeft (String c r) = String c r.
Proof.
  intros (H1 & H2 & _ & H3 & _)%digit_not_space.
  simpl. rewrite H1. destruct r as [|d [|e r]]; [done| |].
  - by rewrite H2.
  - by rewrite H2, H3.
Qed.

Lemma trimLeftRev_digit (c : ascii) (r : string) :
  isDigit c = true -> trimLeftRev (String c r) = String c r.
Proof.
  intros (H1 & _ & H2 & _ & H3)%digit_not_space.
  simpl. rewrite H1. destruct r as [|d [|e r]]; [done| |].
  - by rewrite H2.
  - by rewrite H2, H3.
Qed.

Lemma trimLeft_spaces (ws s : string) :
  onlyAsciiSpace ws = true ->
  trimLeft (String.append ws s) = trimLeft s.
Proof.
  induction ws as [|c ws IH]; [done|].
  simpl. intros [Hc Hws]%andb_true_iff. rewrite Hc. by apply IH.
Qed.

Lemma trimLeftRev_spaces (ws s : string) :
  onlyAsciiSpace ws = true ->
  trimLeftRev (String.append ws s) = trimLeftRev s.
Proof.
  induction ws as [|c ws IH]; [done|].
  simpl. intros [Hc Hws]%andb_true_iff. rewrite Hc. by apply IH.
Qed.

Lemma onlyAsciiSpace_append (a b : string) :
  onlyAsciiSpace (String.append a b) = onlyAsciiSpace a && onlyAsciiSpace b.
Proof.
  induction a as [|c a IH]; [done|].
  rewrite append_cons. simpl. by rewrite IH, andb_assoc.
Qed.

Lemma onlyAsciiSpace_rev (s : string) :
  onlyAsciiSpace (rev s) = onlyAsciiSpace s.
Proof.
  induction s as [|c s IH]; [done|].
  simpl. rewrite onlyAsciiSpace_append, IH. simpl.
  by rewrite andb_true_r, andb_comm.
Qed.

Lemma allAccepted_append (a : Atom) (x y : string) :
  allAccepted a (String.append x y) = allAccepted a x && allAccepted a y.
Proof.
  induction x as [|c x IH]; [done|].
  rewrite append_cons. simpl. by rewrite IH, andb_assoc.
Qed.

Lemma allAccepted_rev (a : Atom) (s : string) :
  allAccepted a (rev s) = allAccepted a s.
Proof.
  induction s as [|c s IH]; [done|].
  simpl. rewrite allAccepted_append, IH. simpl.
  by rewrite andb_true_r, andb_comm.
Qed.

(** A number starts with a digit, and so does it read backwards. *)
Lemma number_head (s : string) :
  number s = true -> exists c r, s = String c r /\ isDigit c = true.
Proof.
  destruct s as [|c r]; [done|]. simpl.
  intros [H _]%andb_true_iff. by exists c, r.
Qed.

Lemma number_rev (s : string) : number s = true -> number (rev s) = true.
Proof.
  destruct s as [|c r]; [done|]. intros H.
  assert (Hall : allAccepted Digit (rev (String c r)) = true)
    by by rewrite allAccepted_rev.
  destruct (rev (String c r)) as [|d r'] eqn:E; [|done].
  apply (f_equal rev) in E. rewrite rev_involutive in E. discriminate E.
Qed.

(** White space around a text that starts and ends with a digit is dropped,
    and nothing else. *)
Lemma TrimSpace_between_digits (ws1 ws2 v : string) :
  onlyAsciiSpace ws1 = true -> onlyAsciiSpace ws2 = true ->
  (exists c r, v = String c r /\ isDigit c = true) ->
  (exists c r, rev v = String c r /\ isDigit c = true) ->
  TrimSpace (String.append ws1 (String.append v ws2)) = v.
Proof.
  intros H1 H2 (c & r & Hv & Hc) (c' & r' & Hrv & Hc').
  unfold TrimSpace, trimRight.
  rewrite trimLeft_spaces by done.
  rewrite Hv, append_cons, trimLeft_digit by done.
  rewrite <-append_cons, <-Hv, rev_append.
  rewrite trimLeftRev_spaces by by rewrite onlyAsciiSpace_rev.
  by rewrite Hrv, trimLeftRev_digit, <-Hrv, rev_involutive.
Qed.

End trim_facts.

(** ** The changelog tool *)

Section tool_facts.
Import strings regexp k8schangelog gkereleasenotes k8schangelog_tool.

Lemma matchHere_end (s : string) : matchHere true [] s = true <-> s = "".
Proof. by destruct s. Qed.

(** What the compiled pattern [^\d+\.\d+$] accepts is a minor version. *)
Lemma accepted_is_MinorVersion (v : string) :
  MatchString kubernetesMinorVersionRegexp v = true -> MinorVersion v.
Proof.
  unfold MatchString, kubernetesMinorVersionRegexp, MinorVersion.
  cbn [beginText items endText]. intros H.
  apply matchHere_OneOrMore in H as (c & pre & s1 & -> & Hc & H).
  apply matchHere_One in H as (dot & s2 & -> & Hdot & H).
  apply matchHere_OneOrMore in H as (d & pre' & s3 & -> & Hd & H).
  apply matchHere_end in H as ->.
  cbn [accepts] in Hdot. apply Ascii.eqb_eq in Hdot as <-.
  exists (String c pre), (String d pre').
  repeat split; try done. by rewrite append_nil_r.
Qed.

(** The compiled pattern accepts every minor version. *)
Lemma MinorVersion_accepted (v : string) :
  MinorVersion v -> MatchString kubernetesMinorVersionRegexp v = true.
Proof.
  unfold MatchString, kubernetesMinorVersionRegexp, MinorVersion.
  cbn [beginText items endText].
  intros (major & minor & -> & Hmaj & Hmin).
  apply number_inv in Hmaj as (c & pre & -> & Hc).
  apply number_inv in Hmin as (d & pre' & -> & Hd).
  apply matchHere_OneOrMore.
  exists c, pre, (String.append "." (String d pre')).
  split; [done|]. split; [done|].
  apply matchHere_One. eexists _, _. split; [reflexivity|]. split; [done|].
  apply matchHere_OneOrMore. exists d, pre', "".
  by rewrite append_nil_r.
Qed.

(** The compiled pattern [^\d+\.\d+$] accepts the minor versions, and
    nothing else: a string is accepted exactly when it is one or more
    decimal digits, a dot, and one or more decimal digits, with nothing
    before or after. *)
Theorem kubernetesMinorVersionRegexp_exact (v : string) :
  MatchString kubernetesMinorVersionRegexp v = true <-> MinorVersion v.
Proof.
  split.
  - apply accepted_is_MinorVersion.
  - apply MinorVersion_accepted.
Qed.

Lemma MinorVersion_ends (v : string) :
  MinorVersion v ->
  (exists c r, v = String c r /\ isDigit c = true)
  /\ (exists c r, rev v = String c r /\ isDigit c = true).
Proof.
  intros (major & minor & -> & Hmaj & Hmin). split.
  - apply number_head in Hmaj as (c & r & -> & Hc).
    exists c. eexists. by rewrite append_cons.
  - apply number_rev, number_head in Hmin as (c & r & Hr & Hc).
    exists c. eexists. split; [|done].
    by rewrite !rev_append, Hr, !append_cons.
Qed.

Lemma TrimSpace_MinorVersion (ws1 ws2 v : string) :
  onlyAsciiSpace ws1 = true -> onlyAsciiSpace ws2 = true ->
  MinorVersion v ->
  TrimSpace (String.append ws1 (String.append v ws2)) = v.
Proof.
  intros H1 H2 [Hl Hr]%MinorVersion_ends.
  by apply TrimSpace_between_digits.
Qed.

(** When the trimmed argument is not a minor version, the call fails with the
    message that quotes it; no command is run and nothing is logged. *)
Theorem getK8sChangelog_rejects
    (Output : string -> list string -> outcome string)
    (args : getK8sChangelogArgs) :
  ~ MinorVersion (TrimSpace (KubernetesMinorVersion args)) ->
  getK8sChangelog Output args
  = (failed (String.append "invalid kubernetes minor version: "
               (TrimSpace (KubernetesMinorVersion args))), []).
Proof.
  intros H. unfold getK8sChangelog.
  destruct (MatchString kubernetesMinorVersionRegexp _) eqn:E; [|done].
  by apply accepted_is_MinorVersion in E.
Qed.

Lemma getK8sChangelog_rejects_witness :
  getK8sChangelog (fun _ _ => ok "") (mkArgs " v1.33 ")
  = (failed "invalid kubernetes minor version: v1.33", []).
Proof.
  apply (getK8sChangelog_rejects (fun _ _ => ok "") (mkArgs " v1.33 ")).
  intros (major & minor & H & Hmaj & _).
  apply number_head in Hmaj as (c & r & -> & Hc).
  vm_compute in H. injection H as <- _. discriminate Hc.
Defined.

(** With a minor version, surrounded by ASCII white space or not, [curl] is
    run once on the address of that version; its error is returned as it is
    and logged, its output is returned filtered. *)
Theorem getK8sChangelog_accepts
    (Output : string -> list string -> outcome string)
    (ws1 v ws2 : string) :
  onlyAsciiSpace ws1 = true -> onlyAsciiSpace ws2 = true ->
  MinorVersion v ->
  getK8sChangelog Output
    (mkArgs (String.append ws1 (String.append v ws2)))
  = match Output "curl" [changelogUrlOf v] with
    | failed err =>
        (failed err,
         [Exec "curl" [changelogUrlOf v];
          Printf (String.append "Failed to get changelog: " err)])
    | ok out => (ok (keepOnlyChanges out), [Exec "curl" [changelogUrlOf v]])
    end.
Proof.
  intros H1 H2 Hv. unfold getK8sChangelog. cbn [KubernetesMinorVersion].
  rewrite TrimSpace_MinorVersion by done.
  by rewrite (MinorVersion_accepted v Hv).
Qed.

Lemma getK8sChangelog_accepts_witness :
  getK8sChangelog (fun _ _ => failed "exit status 6")
    (mkArgs (String.append " " (String.append "1.33" nl)))
  = (failed "exit status 6",
     [Exec "curl" [changelogUrlOf "1.33"];
      Printf "Failed to get changelog: exit status 6"]).
Proof.
  apply (getK8sChangelog_accepts (fun _ _ => failed "exit status 6")
           " " "1.33" nl); [reflexivity..|].
  by exists "1", "33".
Defined.

(** A call runs at most one command, and only [curl] with one argument, the
    changelog address of a minor version: whatever the argument is, nothing
    of it reaches the command line but digits and one dot. *)
Theorem getK8sChangelog_runs_only_curl
    (Output : string -> list string -> outcome string)
    (args : getK8sChangelogArgs) :
  (forall name arg,
     Exec name arg ∈ (getK8sChangelog Output args).2 ->
     name = "curl"
     /\ exists v, MinorVersion v /\ arg = [changelogUrlOf v])
  /\ length (List.filter isExec (getK8sChangelog Output args).2) <= 1.
Proof.
  unfold getK8sChangelog.
  destruct (MatchString kubernetesMinorVersionRegexp _) eqn:E; simpl.
  - apply accepted_is_MinorVersion in E.
    destruct (Output _ _); simpl; (split; [|lia]); intros name arg.
    + intros [= -> ->]%list_elem_of_singleton. split; [done|]. by eexists.
    + rewrite !elem_of_cons, elem_of_nil.
      intros [[= -> ->]|[[=]|[]]]. split; [done|]. by eexists.
  - split; [|lia]. intros name arg H. by apply elem_of_nil in H.
Qed.

Lemma getK8sChangelog_runs_only_curl_witness :
  "curl" = "curl"
  /\ exists v, MinorVersion v /\ [changelogUrlOf "1.33"] = [changelogUrlOf v].
Proof.
  apply (proj1 (getK8sChangelog_runs_only_curl (fun _ _ => ok "")
                  (mkArgs "1.33"))).
  vm_compute. left.
Defined.

(** When [curl] succeeds with a body that has no version heading, an error
    page for instance, the tool answers with an empty text and no error. *)
Theorem getK8sChangelog_no_heading
    (Output : string -> list string -> outcome string)
    (v body : string) :
  MinorVersion v ->
  Output "curl" [changelogUrlOf v] = ok body ->
  Forall (fun l => MatchString changelogVersionLineRegexp l = false)
    (Split body "010") ->
  getK8sChangelog Output (mkArgs v) = (ok "", [Exec "curl" [changelogUrlOf v]]).
Proof.
  intros Hv Hout Hbody.
  assert (Ht : TrimSpace v = v).
  { rewrite <-(append_nil_r v) at 1.
    by apply (TrimSpace_MinorVersion "" "" v). }
  unfold getK8sChangelog. cbn [KubernetesMinorVersion]. rewrite Ht.
  rewrite (MinorVersion_accepted v Hv).
  cbn [negb]. fold (changelogUrlOf v). rewrite Hout.
  unfold keepOnlyChanges. by rewrite run_seeking.
Qed.

Lemma getK8sChangelog_no_heading_witness :
  getK8sChangelog (fun _ _ => ok "404: Not Found") (mkArgs "9.99")
  = (ok "", [Exec "curl" [changelogUrlOf "9.99"]]).
Proof.
  apply (getK8sChangelog_no_heading (fun _ _ => ok "404: Not Found")
           "9.99" "404: Not Found").
  - by exists "9", "99".
  - reflexivity.
  - repeat constructor.
Defined.

(** Digits before a dot are determined by the text. *)
Lemma digits_dot_unique (a a' x x' : string) :
  allAccepted Digit a = true -> allAccepted Digit a' = true ->
  String.append a (String.append "." x)
  = String.append a' (String.append "." x') ->
  a = a' /\ x = x'.
Proof.
  assert (Hnil : forall s, String.append "" s = s) by done.
  revert a'. induction a as [|c a IH]; intros [|c' a'] Ha Ha' H;
    rewrite ?Hnil, ?append_cons, ?Hnil in H.
  - by injection H as ->.
  - injection H as <- _. simpl in Ha'. discriminate Ha'.
  - injection H as -> _. simpl in Ha. discriminate Ha.
  - injection H as -> H.
    simpl in Ha, Ha'.
    apply andb_true_iff in Ha as [_ Ha]. apply andb_true_iff in Ha' as [_ Ha'].
    destruct (IH a' Ha Ha' H) as [-> ->]. done.
Qed.

Lemma number_digits (s : string) : number s = true -> allAccepted Digit s = true.
Proof. by destruct s. Qed.

(** A version with a patch component is not a minor version. *)
Lemma patch_version_not_minor (major minor patch : string) :
  number major = true -> number minor = true -> number patch = true ->
  ~ MinorVersion
      (String.append major (String.append "."
         (String.append minor (String.append "." patch)))).
Proof.
  intros Hmaj Hmin Hp (major' & minor' & H & Hmaj' & Hmin').
  apply digits_dot_unique in H as [<- <-]; [|by apply number_digits..].
  apply number_digits in Hmin'.
  rewrite allAccepted_append in Hmin'.
  apply andb_true_iff in Hmin' as [_ Hmin'].
  rewrite append_cons in Hmin'. simpl in Hmin'. discriminate Hmin'.
Qed.

(** A version with three components, as in ["1.33.2"], is refused and no
    command is run. *)
Theorem getK8sChangelog_refuses_patch_version
    (Output : string -> list string -> outcome string)
    (major minor patch : string) :
  number major = true -> number minor = true -> number patch = true ->
  getK8sChangelog Output
    (mkArgs (String.append major (String.append "."
               (String.append minor (String.append "." patch)))))
  = (failed (String.append "invalid kubernetes minor version: "
               (String.append major (String.append "."
                  (String.append minor (String.append "." patch))))), []).
Proof.
  intros Hmaj Hmin Hp.
  set (v := String.append major _).
  assert (Ht : TrimSpace v = v).
  { rewrite <-(append_nil_r v) at 1.
    change (String.append v "") with (String.append "" (String.append v "")).
    apply TrimSpace_between_digits; [done..| |].
    - apply number_head in Hmaj as (c & r & -> & Hc).
      exists c. eexists. by unfold v; rewrite append_cons.
    - apply number_rev, number_head in Hp as (c & r & Hr & Hc).
      exists c. eexists. split; [|done].
      unfold v. by rewrite !rev_append, Hr, !append_cons. }
  unfold getK8sChangelog. cbn [KubernetesMinorVersion]. rewrite Ht.
  destruct (MatchString kubernetesMinorVersionRegexp v) eqn:E; [|done].
  apply accepted_is_MinorVersion in E.
  by apply patch_version_not_minor in E.
Qed.

Lemma getK8sChangelog_refuses_patch_version_witness :
  getK8sChangelog (fun _ _ => ok "") (mkArgs "1.33.2")
  = (failed "invalid kubernetes minor version: 1.33.2", []).
Proof.
  apply (getK8sChangelog_refuses_patch_version (fun _ _ => ok "")
           "1" "33" "2"); reflexivity.
Defined.

End tool_facts.

(** ** More on the filter *)

Section filter_facts.
Import strings regexp k8schangelog.

Lemma emitted_seeking (pre : list string) :
  Forall (fun l => isVersionLine l = false) pre -> emitted initial pre = [].
Proof.
  induction 1 as [|l pre Hl _ IH]; [done|].
  cbn [emitted]. rewrite step_seeking by done.
  unfold emits. by rewrite Hl.
Qed.

(** Without ignored subsections the output is the text from the first
    version heading on, line for line. *)
Theorem keepOnlyChanges_without_ignored
    (t : string) (pre : list string) (h : string) (post : list string) :
  Split t "010" = pre ++ h :: post ->
  Forall (fun l => MatchString changelogVersionLineRegexp l = false) pre ->
  MatchString changelogVersionLineRegexp h = true ->
  Forall (fun l => anyPrefix l ignoredSectionPrefixes = false) post ->
  keepOnlyChanges t = unlines (h :: post).
Proof.
  intros Ht Hpre Hh Hpost.
  rewrite keepOnlyChanges_unlines, Ht, emitted_app, emitted_seeking by done.
  rewrite run_seeking by done. cbn [app emitted]. unfold emits, isVersionLine.
  rewrite Hh, (version_line_not_ignored h Hh). cbn [orb andb negb app initial
    isInIgnoredSection hasMetTheFirstVersionHeading].
  by rewrite emitted_all; rewrite ?step_first.
Qed.

Lemma keepOnlyChanges_without_ignored_witness :
  keepOnlyChanges (Join ["intro"; "# v1.2.3"; "## Changes"; "- fix"] nl)
  = unlines ["# v1.2.3"; "## Changes"; "- fix"].
Proof.
  apply (keepOnlyChanges_without_ignored _ ["intro"] "# v1.2.3"
           ["## Changes"; "- fix"]).
  - reflexivity.
  - repeat constructor.
  - reflexivity.
  - repeat constructor.
Defined.

Lemma emits_version_line (st : LoopState) (l : string) :
  isVersionLine l = true -> emits st l = true.
Proof.
  intros H. unfold emits.
  rewrite H, (version_line_not_ignored l H), (version_line_top l H).
  by rewrite !orb_true_r.
Qed.

Lemma emitted_version_lines (st : LoopState) (ls : list string) :
  List.filter isVersionLine (emitted st ls) = List.filter isVersionLine ls.
Proof.
  revert st. induction ls as [|l ls IH]; intros st; [done|].
  cbn [emitted List.filter]. rewrite List.filter_app, IH.
  destruct (isVersionLine l) eqn:E.
  - rewrite emits_version_line by done. simpl. by rewrite E.
  - destruct (emits st l); simpl; by rewrite ?E.
Qed.

(** No version heading is lost: the version headings of the output are those
    of the input, in the same order, wherever they stand, inside an ignored
    subsection too. *)
Theorem keepOnlyChanges_keeps_version_headings (t : string) :
  List.filter (MatchString changelogVersionLineRegexp)
    (Split (keepOnlyChanges t) "010")
  = List.filter (MatchString changelogVersionLineRegexp) (Split t "010").
Proof.
  change (MatchString changelogVersionLineRegexp) with isVersionLine.
  rewrite keepOnlyChanges_Split, List.filter_app, emitted_version_lines.
  apply app_nil_r.
Qed.

Lemma step_met (st : LoopState) (l : string) :
  hasMetTheFirstVersionHeading (step st l)
  = hasMetTheFirstVersionHeading st
    || MatchString changelogVersionLineRegexp l.
Proof.
  unfold step. destruct st as [r met ign].
  cbn [result hasMetTheFirstVersionHeading isInIgnoredSection].
  by destruct met, (MatchString changelogVersionLineRegexp l),
    (anyPrefix l ignoredSectionPrefixes), ign,
    (HasPrefix l "# "), (HasPrefix l "## ").
Qed.

Lemma step_ignoring_met (st : LoopState) (l : string) :
  (isInIgnoredSection st = true -> hasMetTheFirstVersionHeading st = true) ->
  isInIgnoredSection (step st l) = true ->
  hasMetTheFirstVersionHeading (step st l) = true.
Proof.
  unfold step. destruct st as [r met ign].
  cbn [result hasMetTheFirstVersionHeading isInIgnoredSection].
  destruct met, (MatchString changelogVersionLineRegexp l),
    (anyPrefix l ignoredSectionPrefixes), ign,
    (HasPrefix l "# "), (HasPrefix l "## "); cbn; auto.
Qed.

(** [hasMetTheFirstVersionHeading] is set by a version heading and by
    nothing else, and is never cleared; [isInIgnoredSection] is never set
    before it. *)
Theorem flags_invariant :
  (forall (st : LoopState) (ls : list string),
     hasMetTheFirstVersionHeading (run st ls)
     = hasMetTheFirstVersionHeading st
       || existsb (MatchString changelogVersionLineRegexp) ls)
  /\ (forall ls : list string,
        isInIgnoredSection (run initial ls) = true ->
        hasMetTheFirstVersionHeading (run initial ls) = true).
Proof.
  split.
  - intros st ls. revert st. induction ls as [|l ls IH]; intros st.
    + simpl. by rewrite orb_false_r.
    + rewrite run_cons, IH, step_met. cbn [existsb]. by rewrite orb_assoc.
  - intros ls.
    assert (H : forall st,
              (isInIgnoredSection st = true ->
               hasMetTheFirstVersionHeading st = true) ->
              isInIgnoredSection (run st ls) = true ->
              hasMetTheFirstVersionHeading (run st ls) = true).
    { induction ls as [|l ls IH]; intros st Hst; [done|].
      rewrite run_cons. apply IH. by apply step_ignoring_met. }
    by apply H.
Qed.

Lemma flags_invariant_witness :
  hasMetTheFirstVersionHeading
    (run initial ["## Dependencies"; "# v1.2.3"; "## Dependencies"]) = true.
Proof.
  apply (proj2 flags_invariant). reflexivity.
Defined.

Lemma splitFrom_app (sep : ascii) (a b cur : string) :
  splitFrom sep cur (String.append a (String sep b))
  = splitFrom sep cur a ++ splitFrom sep "" b.
Proof.
  revert cur. induction a as [|c a IH]; intros cur.
  - change (String.append "" (String sep b)) with (String sep b).
    simpl. by rewrite Ascii.eqb_refl.
  - rewrite append_cons. simpl.
    destruct (Ascii.eqb c sep); [|done]. by rewrite IH.
Qed.

(** The output only grows: the output for a text followed by more lines is
    the output for the text followed by what the further lines add. *)
Theorem keepOnlyChanges_extends (t1 t2 : string) :
  keepOnlyChanges (String.append t1 (String.append nl t2))
  = String.append (keepOnlyChanges t1)
      (unlines (emitted (run initial (Split t1 "010")) (Split t2 "010"))).
Proof.
  unfold keepOnlyChanges, Split, nl.
  rewrite append_cons.
  change (String.append "" t2) with t2.
  by rewrite splitFrom_app, run_app, (run_result (run initial _)).
Qed.

End filter_facts.

(** ** What an exclusion rule reaches *)

Section removal_facts.
Import strings html cascadia goquery gkereleasenotes.

(** In a tree without shared addresses a node is known by its address. *)
Lemma node_eq_of_addr (n x y : Node) :
  NoDup (addrs n) ->
  x ∈ subtree n -> y ∈ subtree n -> addr x = addr y -> x = y.
Proof.
  revert x y. induction n as [a t d at_ kids IH] using Node_ind.
  intros x y Hnd. rewrite subtree_unfold. simpl in Hnd. cbn [children].
  apply NoDup_cons in Hnd as [Ha Hnd].
  assert (Hin : forall z, z ∈ flat_map subtree kids ->
            exists k, k ∈ kids /\ z ∈ subtree k /\ addr z ∈ addrs k
                      /\ addr z ∈ flat_map addrs kids).
  { intros z (k & Hk & Hz)%elem_of_flat_map. exists k.
    pose proof (subtree_addr _ _ Hz) as Hza.
    repeat split; try done. apply elem_of_flat_map. by exists k. }
  intros [->|Hx]%elem_of_cons [->|Hy]%elem_of_cons Heq; [done| | |].
  - apply Hin in Hy as (_ & _ & _ & _ & Hy). simpl in Heq.
    rewrite <-Heq in Hy. done.
  - apply Hin in Hx as (_ & _ & _ & _ & Hx). simpl in Heq.
    rewrite Heq in Hx. done.
  - apply Hin in Hx as (k1 & Hk1 & Hx & Hxa & _).
    apply Hin in Hy as (k2 & Hk2 & Hy & Hya & _).
    assert (k1 = k2) as <-.
    { apply (siblings_disjoint kids k1 k2 (addr x)); try done.
      by rewrite Heq. }
    rewrite Forall_forall in IH.
    apply (IH k1 Hk1); try done. by eapply NoDup_child.
Qed.

(** The addresses strictly below a node. *)
Lemma child_of_subtree (n q c : Node) :
  q ∈ subtree n -> c ∈ children q -> addr c ∈ flat_map addrs (children n).
Proof.
  rewrite subtree_unfold. intros [->|Hq]%elem_of_cons Hc.
  - by apply child_addr.
  - apply elem_of_flat_map in Hq as (k & Hk & Hq).
    apply elem_of_flat_map. exists k. split; [done|].
    apply (subtree_addrs k q); [done|].
    rewrite addrs_unfold. right. by apply child_addr.
Qed.

(** A node has one parent. *)
Lemma parent_unique (n p q a a' : Node) :
  NoDup (addrs n) ->
  p ∈ subtree n -> q ∈ subtree n ->
  a ∈ children p -> a' ∈ children q -> addr a = addr a' -> p = q.
Proof.
  revert p q a a'. induction n as [x t d at_ kids IH] using Node_ind.
  intros p q a a' Hnd Hp Hq Ha Ha' Heq.
  assert (Hroot : forall r c c', r ∈ flat_map subtree kids ->
            c ∈ kids -> c' ∈ children r -> addr c = addr c' -> False).
  { intros r c c' (k & Hk & Hr)%elem_of_flat_map Hc Hc' Hcc.
    simpl in Hnd. apply NoDup_cons in Hnd as [_ Hnd].
    pose proof (child_of_subtree k r c' Hr Hc') as Hin.
    assert (c = k) as ->.
    { apply (siblings_disjoint kids c k (addr c)); try done.
      - apply addr_in_addrs.
      - rewrite addrs_unfold. right. by rewrite Hcc. }
    pose proof (NoDup_child _ _ Hnd Hk) as Hndk.
    rewrite addrs_unfold in Hndk. apply NoDup_cons in Hndk as [Hfresh _].
    by rewrite Hcc in Hfresh. }
  rewrite subtree_unfold in Hp, Hq. cbn [children] in Hp, Hq.
  apply elem_of_cons in Hp as [->|Hp], Hq as [->|Hq]; [done| | |].
  - destruct (Hroot q a a' Hq Ha Ha' Heq).
  - destruct (Hroot p a' a Hp Ha' Ha (eq_sym Heq)).
  - simpl in Hnd. apply NoDup_cons in Hnd as [_ Hnd].
    apply elem_of_flat_map in Hp as (k1 & Hk1 & Hp).
    apply elem_of_flat_map in Hq as (k2 & Hk2 & Hq).
    assert (k1 = k2) as <-.
    { apply (siblings_disjoint kids k1 k2 (addr a)); try done.
      - rewrite addrs_unfold. right. by eapply child_of_subtree.
      - rewrite Heq, addrs_unfold. right. by eapply child_of_subtree. }
    rewrite Forall_forall in IH.
    apply (IH k1 Hk1 p q a a'); try done. by eapply NoDup_child.
Qed.

Lemma parentOf_is_Some (root p a : Node) :
  p ∈ subtree root -> a ∈ children p ->
  exists q, parentOf root (addr a) = Some q.
Proof.
  revert p. induction root as [x t d at_ kids IH] using Node_ind.
  intros p Hp Ha. simpl.
  destruct (existsb _ kids) eqn:E; [by eexists|].
  rewrite subtree_unfold in Hp. cbn [children] in Hp.
  apply elem_of_cons in Hp as [->|Hp].
  - assert (E' : existsb (fun c => addr c =? addr a)%nat kids = true).
    { apply existsb_exists. exists a. split; [by apply list_elem_of_In|].
      apply Nat.eqb_refl. }
    by rewrite E' in E.
  - apply elem_of_flat_map in Hp as (k & Hk & Hp).
    rewrite Forall_forall in IH. destruct (IH k Hk p Hp Ha) as [q Hq].
    assert (Hin : q ∈ flat_map (fun c => option_list (parentOf c (addr a))) kids).
    { apply elem_of_flat_map. exists k. split; [done|]. rewrite Hq. by left. }
    destruct (flat_map _ kids) as [|z l]; [by apply elem_of_nil in Hin|].
    by eexists.
Qed.

(** The parent pointer of a child of [p] is [p]. *)
Lemma parentOf_complete (root p a : Node) :
  NoDup (addrs root) ->
  p ∈ subtree root -> a ∈ children p ->
  parentOf root (addr a) = Some p.
Proof.
  intros Hnd Hp Ha.
  destruct (parentOf_is_Some root p a Hp Ha) as [q Hq].
  rewrite Hq. f_equal.
  apply parentOf_elem in Hq as [Hqs (c & Hc & Hca)].
  by apply (parent_unique root q p c a).
Qed.

Lemma MatchAll_complete (m : Matcher) (n x : Node) :
  x ∈ subtree n -> m x = true -> x ∈ MatchAll m n.
Proof.
  revert x. induction n as [a t d at_ kids IH] using Node_ind. intros x.
  rewrite subtree_unfold. simpl. intros [->|Hx]%elem_of_cons Hm.
  - rewrite Hm. by left.
  - apply elem_of_app. right.
    apply elem_of_flat_map in Hx as (k & Hk & Hx).
    apply elem_of_flat_map. exists k. split; [done|].
    rewrite Forall_forall in IH. by apply IH.
Qed.

Lemma appendWithoutDuplicates_target (target nodes : list Node) (x : Node) :
  x ∈ target -> x ∈ appendWithoutDuplicates target nodes.
Proof.
  unfold appendWithoutDuplicates. revert target.
  induction nodes as [|n nodes IH]; intros target Hx; [done|].
  simpl. apply IH. destruct (isInSlice target n); [done|].
  apply elem_of_app. by left.
Qed.

Lemma appendWithoutDuplicates_nodes (target nodes : list Node) (x : Node) :
  x ∈ nodes ->
  exists x', x' ∈ appendWithoutDuplicates target nodes /\ addr x' = addr x.
Proof.
  revert target. induction nodes as [|n nodes IH]; intros target Hx;
    [by apply elem_of_nil in Hx|].
  apply elem_of_cons in Hx as [->|Hx]; [|by apply IH].
  unfold appendWithoutDuplicates. simpl.
  fold (appendWithoutDuplicates
          (if isInSlice target n then target else target ++ [n]) nodes).
  destruct (isInSlice target n) eqn:E.
  - apply existsb_exists in E as (x' & Hx'%list_elem_of_In & Heq%Nat.eqb_eq).
    exists x'. split; [by apply appendWithoutDuplicates_target|done].
  - exists n. split; [|done]. apply appendWithoutDuplicates_target.
    apply elem_of_app. right. by left.
Qed.

Lemma mapNodes_complete (nodes : list Node) (f : Node -> list Node)
    (n x : Node) :
  n ∈ nodes -> x ∈ f n ->
  exists x', x' ∈ mapNodes nodes f /\ addr x' = addr x.
Proof.
  unfold mapNodes.
  assert (Hacc : forall l acc y, y ∈ acc ->
            y ∈ fold_left (fun result n0 => appendWithoutDuplicates result (f n0))
                  l acc).
  { induction l as [|n0 l IH]; intros acc y Hy; [done|].
    simpl. apply IH. by apply appendWithoutDuplicates_target. }
  generalize (@nil Node).
  induction nodes as [|n0 nodes IH]; intros acc Hn Hx;
    [by apply elem_of_nil in Hn|].
  apply elem_of_cons in Hn as [->|Hn]; [|by apply IH].
  simpl.
  destruct (appendWithoutDuplicates_nodes acc (f n0) x Hx) as (x' & Hx' & Heq).
  exists x'. split; [by apply Hacc|done].
Qed.

(** [doc.Find] selects every match below an element child of the root. *)
Lemma Find_complete (root : Node) (m : Matcher) (c x : Node) :
  NoDup (addrs root) ->
  c ∈ children root -> isType ElementNode c = true ->
  x ∈ subtree c -> m x = true ->
  x ∈ Find [root] m.
Proof.
  intros Hnd Hc He Hx Hm.
  assert (Hf : x ∈ flat_map (fun c0 => if isType ElementNode c0
                                       then MatchAll m c0 else [])
                 (children root)).
  { apply elem_of_flat_map. exists c. split; [done|].
    rewrite He. by apply MatchAll_complete. }
  destruct (mapNodes_complete [root]
              (fun n => flat_map (fun c0 => if isType ElementNode c0
                                            then MatchAll m c0 else [])
                          (children n))
              root x ltac:(by left) Hf)
    as (x' & Hx' & Heq).
  assert (x' = x) as <-; [|done].
  apply (node_eq_of_addr root); try done.
  - apply below_subtree. by apply (Find_elem root m).
  - apply below_subtree. apply elem_of_flat_map. by exists c.
Qed.

(** [s.Parent()] holds the parent element of every node of [s]. *)
Lemma Parent_complete (root : Node) (s : Selection) (p a : Node) :
  NoDup (addrs root) ->
  a ∈ s -> p ∈ subtree root -> a ∈ children p ->
  isType ElementNode p = true ->
  p ∈ Parent root s.
Proof.
  intros Hnd Ha Hp Hc He.
  pose proof (parentOf_complete root p a Hnd Hp Hc) as Hpar.
  assert (Hf : p ∈ match parentOf root (addr a) with
                   | Some p0 => if isType ElementNode p0 then [p0] else []
                   | None => []
                   end) by (rewrite Hpar, He; by left).
  destruct (mapNodes_complete s
              (fun n => match parentOf root (addr n) with
                        | Some p0 => if isType ElementNode p0 then [p0] else []
                        | None => []
                        end)
              a p Ha Hf) as (p' & Hp' & Heq).
  assert (p' = p) as <-; [|done].
  apply (node_eq_of_addr root); try done.
  by apply Parent_elem in Hp' as (? & _ & [? _]%parentOf_elem & _).
Qed.

Lemma subtree_trans_child (n q c : Node) :
  q ∈ subtree n -> c ∈ children q -> c ∈ subtree n.
Proof.
  revert q c. induction n as [a t d at_ kids IH] using Node_ind.
  intros q c. rewrite subtree_unfold. cbn [children].
  intros [->|Hq]%elem_of_cons Hc.
  - right. apply elem_of_flat_map. exists c. split; [done|].
    rewrite subtree_unfold. by left.
  - right. apply elem_of_flat_map in Hq as (k & Hk & Hq).
    apply elem_of_flat_map. exists k. split; [done|].
    rewrite Forall_forall in IH. by apply (IH k Hk q).
Qed.

(** The parent of the parent of a match is in the selection the rule
    removes. *)
Lemma grandparent_removed (doc : Node) (m : Matcher) (c g p a : Node) :
  wellFormed doc ->
  c ∈ children doc -> isType ElementNode c = true ->
  g ∈ subtree c -> isType ElementNode g = true ->
  p ∈ children g -> isType ElementNode p = true ->
  a ∈ children p -> m a = true ->
  g ∈ removed doc m.
Proof.
  intros [Hdoc Hnd] Hc Hce Hg Hge Hp Hpe Ha Hm.
  assert (Hgs : g ∈ subtree doc).
  { apply below_subtree. apply elem_of_flat_map. by exists c. }
  assert (Hpc : p ∈ subtree c) by by apply (subtree_trans_child c g p).
  assert (Hps : p ∈ subtree doc).
  { apply below_subtree. apply elem_of_flat_map. by exists c. }
  assert (Has : a ∈ subtree c) by by apply (subtree_trans_child c p a).
  unfold removed.
  apply (Parent_complete doc _ g p); try done.
  apply (Parent_complete doc _ p a); try done.
  by apply (Find_complete doc m c a).
Qed.

(** An element with an anchor two levels below it is removed by the rule,
    with everything under it: in a parsed document, if [g] is an element
    below an element child of the document node, [p] an element child of
    [g] and [a] a child of [p] that the rule matches, then [g] is in the
    selection that is removed and no node of [g] is left afterwards. *)
Theorem exclusion_rule_complete (doc : Node) (m : Matcher) (c g p a : Node) :
  wellFormed doc ->
  c ∈ children doc -> isType ElementNode c = true ->
  g ∈ subtree c -> isType ElementNode g = true ->
  p ∈ children g -> isType ElementNode p = true ->
  a ∈ children p -> m a = true ->
  g ∈ removed doc m
  /\ forall x, x ∈ subtree g -> addr x ∉ addrs (removeGrandparents doc m).
Proof.
  intros Hwf Hc Hce Hg Hge Hp Hpe Ha Hm.
  assert (Hrem : g ∈ removed doc m)
    by by apply (grandparent_removed doc m c g p a).
  split; [done|]. intros x Hx.
  apply (removeGrandparents_gone doc m g); try done.
  by apply subtree_addr.
Qed.

Lemma exclusion_rule_complete_witness :
  excludedSection "old" ∈ removed (page "old" "new") versionUpdates.
Proof.
  assert (Hwf : wellFormed (page "old" "new")) by apply page_wellFormed.
  assert (Hc : element 1 "html" []
                 [element 2 "body" []
                    [excludedSection "old";
                     element 8 "div" [mkAttribute "class" "notes releases"]
                       [text 9 "new"]]]
               ∈ children (page "old" "new")) by left.
  assert (Hg : excludedSection "old"
               ∈ subtree (element 1 "html" []
                            [element 2 "body" []
                               [excludedSection "old";
                                element 8 "div"
                                  [mkAttribute "class" "notes releases"]
                                  [text 9 "new"]]]))
    by (vm_compute; do 2 right; left).
  assert (Hp : element 4 "h2" []
                 [element 5 "span" [mkAttribute "data-text" "Version updates"]
                    [text 10 "Version updates"]]
               ∈ children (excludedSection "old")) by left.
  assert (Ha : element 5 "span" [mkAttribute "data-text" "Version updates"]
                 [text 10 "Version updates"]
               ∈ children (element 4 "h2" []
                             [element 5 "span"
                                [mkAttribute "data-text" "Version updates"]
                                [text 10 "Version updates"]])) by left.
  exact (proj1 (exclusion_rule_complete _ versionUpdates _ _ _ _
                  Hwf Hc eq_refl Hg eq_refl Hp eq_refl Ha eq_refl)).
Defined.

(** *** The document after the rules *)

Lemma addr_unlinkAll (dead : list nat) (n : Node) :
  addr (unlinkAll dead n) = addr n.
Proof. by destruct n. Qed.

Lemma children_unlinkAll (dead : list nat) (x c1 : Node) :
  c1 ∈ children (unlinkAll dead x) ->
  exists c, c ∈ children x /\ c1 = unlinkAll dead c.
Proof.
  destruct x as [a t d at_ kids]. simpl.
  intros (c & Hc & H)%elem_of_flat_map. exists c. split; [done|].
  destruct (existsb _ dead); [by apply elem_of_nil in H|].
  by apply list_elem_of_singleton in H.
Qed.

Lemma subtree_unlinkAll (dead : list nat) (n x1 : Node) :
  x1 ∈ subtree (unlinkAll dead n) ->
  exists x, x ∈ subtree n /\ x1 = unlinkAll dead x.
Proof.
  revert x1. induction n as [a t d at_ kids IH] using Node_ind. intros x1.
  rewrite subtree_unfold. intros [->|H]%elem_of_cons.
  - eexists. split; [|done]. rewrite subtree_unfold. by left.
  - apply elem_of_flat_map in H as (k1 & Hk1 & H).
    apply children_unlinkAll in Hk1 as (k & Hk & ->).
    rewrite Forall_forall in IH. destruct (IH k Hk x1 H) as (x & Hx & ->).
    exists x. split; [|done]. rewrite subtree_unfold. right.
    apply elem_of_flat_map. by exists k.
Qed.

(** The selectors look at the type and the attributes of a node only. *)
Lemma matchAttribute_unlinkAll (dead : list nat) (x : Node) (key : string)
    (f : string -> bool) :
  matchAttribute (unlinkAll dead x) key f = matchAttribute x key f.
Proof. by destruct x. Qed.

(** What unlinking leaves of an anchor two levels below an element was there
    before. *)
Lemma deep_anchor_unlinkAll (dead : list nat) (doc : Node) (key val : string)
    (c g p a : Node) :
  c ∈ children (unlinkAll dead doc) -> isType ElementNode c = true ->
  g ∈ subtree c -> isType ElementNode g = true ->
  p ∈ children g -> isType ElementNode p = true ->
  a ∈ children p -> attributeSuffixSelector key val a = true ->
  exists c0 g0 p0 a0,
    c0 ∈ children doc /\ isType ElementNode c0 = true
    /\ g0 ∈ subtree c0 /\ isType ElementNode g0 = true
    /\ p0 ∈ children g0 /\ isType ElementNode p0 = true
    /\ a0 ∈ children p0 /\ attributeSuffixSelector key val a0 = true
    /\ g = unlinkAll dead g0.
Proof.
  intros (c0 & Hc0 & ->)%children_unlinkAll Hce
         (g0 & Hg0 & ->)%subtree_unlinkAll Hge
         (p0 & Hp0 & ->)%children_unlinkAll Hpe
         (a0 & Ha0 & ->)%children_unlinkAll Hm.
  rewrite isType_unlinkAll in Hce, Hge, Hpe.
  unfold attributeSuffixSelector in Hm. rewrite matchAttribute_unlinkAll in Hm.
  by exists c0, g0, p0, a0.
Qed.

(** After an attribute rule, no anchor of the rule is left two levels below
    an element. *)
Lemma no_deep_anchor_after_rule (doc : Node) (key val : string)
    (c g p a : Node) :
  wellFormed doc ->
  c ∈ children (removeGrandparents doc (attributeSuffixSelector key val)) ->
  isType ElementNode c = true ->
  g ∈ subtree c -> isType ElementNode g = true ->
  p ∈ children g -> isType ElementNode p = true ->
  a ∈ children p ->
  attributeSuffixSelector key val a = false.
Proof.
  intros Hwf Hc Hce Hg Hge Hp Hpe Ha.
  destruct (attributeSuffixSelector key val a) eqn:Hm; [|done].
  assert (Hin : addr g ∈ addrs (removeGrandparents doc
                                  (attributeSuffixSelector key val))).
  { apply subtree_addr, below_subtree, elem_of_flat_map. by exists c. }
  unfold removeGrandparents in Hc. rewrite Remove_unlinkAll in Hc.
  destruct (deep_anchor_unlinkAll _ doc key val c g p a
              Hc Hce Hg Hge Hp Hpe Ha Hm)
    as (c0 & g0 & p0 & a0 & H1 & H2 & H3 & H4 & H5 & H6 & H7 & H8 & ->).
  pose proof (grandparent_removed doc (attributeSuffixSelector key val)
                c0 g0 p0 a0 Hwf H1 H2 H3 H4 H5 H6 H7 H8) as Hrem.
  rewrite addr_unlinkAll in Hin.
  destruct (removeGrandparents_gone doc (attributeSuffixSelector key val) g0
              (addr g0) Hwf Hrem (addr_in_addrs g0) Hin).
Qed.

(** The two rules leave no anchor of theirs two levels below an element:
    in the document on which the release blocks are searched, a node with
    an element parent that has an element parent, under an element child of
    the document node, is neither a [Version updates] nor a
    [Security updates] anchor. *)
Theorem pruned_has_no_deep_anchor (doc c g p a : Node) :
  wellFormed doc ->
  c ∈ children (pruned doc) -> isType ElementNode c = true ->
  g ∈ subtree c -> isType ElementNode g = true ->
  p ∈ children g -> isType ElementNode p = true ->
  a ∈ children p ->
  versionUpdates a = false /\ securityUpdates a = false.
Proof.
  intros Hwf Hc Hce Hg Hge Hp Hpe Ha.
  pose proof (removeGrandparents_wellFormed doc versionUpdates Hwf) as Hwf1.
  split.
  - destruct (versionUpdates a) eqn:Hm; [|done].
    unfold pruned, removeGrandparents at 1 in Hc.
    rewrite Remove_unlinkAll in Hc.
    destruct (deep_anchor_unlinkAll _ _ "data-text" "Version updates" c g p a
                Hc Hce Hg Hge Hp Hpe Ha Hm)
      as (c0 & g0 & p0 & a0 & H1 & H2 & H3 & H4 & H5 & H6 & H7 & H8 & _).
    assert (versionUpdates a0 = false) as Hfalse.
    { by apply (no_deep_anchor_after_rule doc "data-text" "Version updates"
                  c0 g0 p0 a0). }
    unfold versionUpdates in Hfalse. by rewrite H8 in Hfalse.
  - by apply (no_deep_anchor_after_rule
                (removeGrandparents doc versionUpdates)
                "data-text" "Security updates" c g p a).
Qed.

End removal_facts.

(** ** White space and visible characters *)

Section plain_facts.
Import strings.

Lemma plain_bytes (c : ascii) :
  plain c = true ->
  asciiSpace c = false
  /\ (128 <=? nat_of_ascii c)%nat = false
  /\ Ascii.eqb c "128" = false /\ Ascii.eqb c "129" = false
  /\ Ascii.eqb c "133" = false /\ Ascii.eqb c "154" = false
  /\ Ascii.eqb c "159" = false /\ Ascii.eqb c "160" = false
  /\ Ascii.eqb c "168" = false /\ Ascii.eqb c "169" = false
  /\ Ascii.eqb c "175" = false /\ Ascii.eqb c "194" = false
  /\ Ascii.eqb c "225" = false /\ Ascii.eqb c "226" = false
  /\ Ascii.eqb c "227" = false.
Proof.
  destruct c as [[] [] [] [] [] [] [] []]; intros H;
    try (vm_compute in H; discriminate H); vm_compute; tauto.
Qed.

(** The bytes of a white-space rune are not visible ASCII characters. *)
Lemma asciiSpace_not_plain (c : ascii) : asciiSpace c = true -> plain c = false.
Proof. intros H. unfold plain. by rewrite H. Qed.

Lemma isSpace2_not_plain (c d : ascii) :
  isSpace2 c d = true -> plain c = false /\ plain d = false.
Proof.
  intros H. split.
  - destruct (plain c) eqn:E; [|done].
    apply plain_bytes in E as (_&_&_&_&_&_&_&_&_&_&_&E&_).
    unfold isSpace2 in H. by rewrite E in H.
  - destruct (plain d) eqn:E; [|done].
    apply plain_bytes in E as (_&_&_&_&E1&_&_&E2&_).
    unfold isSpace2 in H. rewrite E1, E2 in H. by rewrite andb_false_r in H.
Qed.

Lemma isSpace3_not_plain (c d e : ascii) :
  isSpace3 c d e = true ->
  plain c = false /\ plain d = false /\ plain e = false.
Proof.
  intros H. repeat split.
  - destruct (plain c) eqn:E; [|done].
    apply plain_bytes in E as (_&_&_&_&_&_&_&_&_&_&_&_&E1&E2&E3).
    unfold isSpace3 in H. by rewrite E1, E2, E3 in H.
  - destruct (plain d) eqn:E; [|done].
    apply plain_bytes in E as (_&_&E1&E2&_&E3&_).
    unfold isSpace3 in H. rewrite E1, E2, E3 in H.
    by rewrite !andb_false_r in H.
  - destruct (plain e) eqn:E; [|done].
    apply plain_bytes in E as (_&E0&E1&_&_&_&E2&_&E3&E4&E5&_).
    unfold isSpace3 in H. rewrite E0, E1, E2, E3, E4, E5 in H.
    cbn [andb orb] in H. by rewrite !andb_false_r in H.
Qed.

Lemma hasPlain_append (a b : string) :
  hasPlain (String.append a b) = hasPlain a || hasPlain b.
Proof.
  induction a as [|c a IH]; [done|].
  rewrite append_cons. simpl. by rewrite IH, orb_assoc.
Qed.

Lemma hasPlain_rev (s : string) : hasPlain (rev s) = hasPlain s.
Proof.
  induction s as [|c s IH]; [done|].
  simpl. rewrite hasPlain_append, IH. simpl.
  by rewrite orb_false_r, orb_comm.
Qed.

(** Trimming keeps every visible ASCII character. *)
Lemma trimLeft_hasPlain (s : string) : hasPlain (trimLeft s) = hasPlain s.
Proof.
  remember (String.length s) as n eqn:Hn. revert s Hn.
  induction n as [n IH] using lt_wf_ind. intros s Hn.
  destruct s as [|c r]; [done|]. simpl.
  destruct (asciiSpace c) eqn:E1.
  { rewrite (asciiSpace_not_plain c E1). simpl in Hn.
    apply (IH (String.length r)); [lia|done]. }
  destruct r as [|d r1]; [done|].
  destruct (isSpace2 c d) eqn:E2.
  { destruct (isSpace2_not_plain c d E2) as [-> Hd]. simpl. rewrite Hd.
    simpl in Hn. apply (IH (String.length r1)); [lia|done]. }
  destruct r1 as [|e r2]; [done|].
  destruct (isSpace3 c d e) eqn:E3; [|done].
  destruct (isSpace3_not_plain c d e E3) as (-> & Hd & He). simpl.
  rewrite Hd, He. simpl in Hn. apply (IH (String.length r2)); [lia|done].
Qed.

Lemma trimLeftRev_hasPlain (s : string) :
  hasPlain (trimLeftRev s) = hasPlain s.
Proof.
  remember (String.length s) as n eqn:Hn. revert s Hn.
  induction n as [n IH] using lt_wf_ind. intros s Hn.
  destruct s as [|c r]; [done|]. simpl.
  destruct (asciiSpace c) eqn:E1.
  { rewrite (asciiSpace_not_plain c E1). simpl in Hn.
    apply (IH (String.length r)); [lia|done]. }
  destruct r as [|d r1]; [done|].
  destruct (isSpace2 d c) eqn:E2.
  { destruct (isSpace2_not_plain d c E2) as [Hd ->]. simpl. rewrite Hd.
    simpl in Hn. apply (IH (String.length r1)); [lia|done]. }
  destruct r1 as [|e r2]; [done|].
  destruct (isSpace3 e d c) eqn:E3; [|done].
  destruct (isSpace3_not_plain e d c E3) as (He & Hd & ->). simpl.
  rewrite Hd, He. simpl in Hn. apply (IH (String.length r2)); [lia|done].
Qed.

Lemma TrimSpace_hasPlain (s : string) : hasPlain (TrimSpace s) = hasPlain s.
Proof.
  unfold TrimSpace, trimRight.
  by rewrite hasPlain_rev, trimLeftRev_hasPlain, hasPlain_rev,
    trimLeft_hasPlain.
Qed.

(** A text with a visible ASCII character is not blank; a text of ASCII
    white space is. *)
Lemma TrimSpace_not_blank (s : string) :
  hasPlain s = true -> String.eqb (TrimSpace s) "" = false.
Proof.
  intros H. rewrite <-TrimSpace_hasPlain in H.
  by destruct (TrimSpace s).
Qed.

Lemma TrimSpace_blank (s : string) :
  onlyAsciiSpace s = true -> TrimSpace s = "".
Proof.
  intros H. unfold TrimSpace, trimRight.
  rewrite <-(append_nil_r s), trimLeft_spaces by done. done.
Qed.

End plain_facts.

(** ** The prompt handler *)

Section handler_facts.
Import strings gkereleasenotes template upgraderiskreport.
Variable noValue : string.
Variable instructions : string.

(** A request whose cluster name is missing or blank is refused with the
    error that names [cluster_name], whatever the other arguments are; with
    a cluster name that holds a visible character, a missing or blank
    location is refused with the error that names [cluster_location]. *)
Theorem handler_refuses_blank (Arguments : gmap string string) :
  (onlyAsciiSpace (index Arguments "cluster_name") = true ->
   gkeUpgradeRiskReportHandler noValue instructions Arguments
   = failed "argument 'cluster_name' cannot be empty")
  /\ (hasPlain (index Arguments "cluster_name") = true ->
      onlyAsciiSpace (index Arguments "cluster_location") = true ->
      gkeUpgradeRiskReportHandler noValue instructions Arguments
      = failed "argument 'cluster_location' cannot be empty").
Proof.
  unfold gkeUpgradeRiskReportHandler, clusterNameArgName,
    clusterLocationArgName.
  split.
  - intros H. by rewrite (TrimSpace_blank _ H).
  - intros Hn Hl.
    by rewrite (TrimSpace_not_blank _ Hn), (TrimSpace_blank _ Hl).
Qed.

(** With a cluster name and a location that are not blank the handler
    answers, with or without a target version: the prompt starts with the
    three values, trimmed, on a line each, and goes on with the
    instructions.  Nothing in it depends on what the template engine prints
    for a missing key. *)
Theorem handler_prompt (Arguments : gmap string string) :
  TrimSpace (index Arguments "cluster_name") <> "" ->
  TrimSpace (index Arguments "cluster_location") <> "" ->
  gkeUpgradeRiskReportHandler noValue instructions Arguments
  = ok (String.append nl (String.append "Cluster name: "
         (String.append (TrimSpace (index Arguments "cluster_name"))
         (String.append nl (String.append "Cluster location: "
         (String.append (TrimSpace (index Arguments "cluster_location"))
         (String.append nl (String.append "Target version: "
         (String.append (TrimSpace (index Arguments "target_version"))
            instructions))))))))).
Proof.
  intros Hn Hl.
  unfold gkeUpgradeRiskReportHandler, clusterNameArgName,
    clusterLocationArgName, targetVersionArgName.
  apply String.eqb_neq in Hn, Hl. rewrite Hn, Hl. f_equal.
  unfold Execute, gkeUpgradeRiskReportTmpl, WriteString. cbn [fold_left].
  rewrite lookup_insert_eq.
  rewrite lookup_insert_ne, lookup_insert_eq by done.
  rewrite !lookup_insert_ne, lookup_insert_eq by done.
  cbn [default].
  change (String.append "" ?x) with x.
  by rewrite !append_assoc.
Qed.

End handler_facts.

Section handler_required_facts.
Import strings gkereleasenotes template upgraderiskreport.
Variable noValue : string.
Variables afterTarget1 afterTarget2 afterTarget3 : string.

(** In the revision that requires a target version, the version asked for
    is checked and then not printed: the template reads the key
    [target_version], the map holds [targetVersion].  Two requests that
    differ in their target version only, neither blank, get the same
    answer. *)
Theorem handler_required_ignores_target
    (Arguments : gmap string string) (v v' : string) :
  TrimSpace v <> "" -> TrimSpace v' <> "" ->
  upgraderiskreport_required.gkeUpgradeRiskReportHandler noValue
    afterTarget1 afterTarget2 afterTarget3
    (<["target_version" := v]> Arguments)
  = upgraderiskreport_required.gkeUpgradeRiskReportHandler noValue
      afterTarget1 afterTarget2 afterTarget3
      (<["target_version" := v']> Arguments).
Proof.
  intros Hv Hv'. apply String.eqb_neq in Hv, Hv'.
  unfold upgraderiskreport_required.gkeUpgradeRiskReportHandler, index,
    clusterNameArgName, clusterLocationArgName, targetVersionArgName.
  rewrite !lookup_insert_eq, !lookup_insert_ne by done.
  change (default "" (Some v)) with v. change (default "" (Some v')) with v'.
  generalize (default "" (Arguments !! "cluster_name")) as name.
  generalize (default "" (Arguments !! "cluster_location")) as location.
  intros location name. rewrite Hv, Hv'.
  destruct (String.eqb (TrimSpace name) ""); [done|].
  destruct (String.eqb (TrimSpace location) ""); [done|].
  (* the lookups of the template are on literal keys and compute: the key
     [target_version] is in neither map *)
  reflexivity.
Qed.

End handler_required_facts.

Section handler_witnesses.
Import strings gkereleasenotes template upgraderiskreport.

Lemma handler_refuses_blank_witness :
  gkeUpgradeRiskReportHandler "" "Instructions."
    (<["cluster_location" := "europe-west1"]> ∅)
  = failed "argument 'cluster_name' cannot be empty".
Proof.
  apply (proj1 (handler_refuses_blank "" "Instructions."
                  (<["cluster_location" := "europe-west1"]> ∅))).
  reflexivity.
Defined.

Lemma handler_prompt_witness :
  gkeUpgradeRiskReportHandler "" "Instructions."
    (<["cluster_name" := " prod "]> (<["cluster_location" := "europe-west1"]> ∅))
  = ok (String.append nl (String.append "Cluster name: prod"
         (String.append nl (String.append "Cluster location: europe-west1"
         (String.append nl "Target version: Instructions."))))).
Proof.
  etrans.
  - apply (handler_prompt "" "Instructions."
             (<["cluster_name" := " prod "]>
                (<["cluster_location" := "europe-west1"]> ∅)));
      by vm_compute.
  - by vm_compute.
Defined.

Lemma handler_required_ignores_target_witness :
  upgraderiskreport_required.gkeUpgradeRiskReportHandler "" "a" "b" "c"
    (<["target_version" := "1.33"]>
       (<["cluster_name" := "prod"]> (<["cluster_location" := "here"]> ∅)))
  = upgraderiskreport_required.gkeUpgradeRiskReportHandler "" "a" "b" "c"
      (<["target_version" := "1.34"]>
         (<["cluster_name" := "prod"]> (<["cluster_location" := "here"]> ∅))).
Proof.
  apply (handler_required_ignores_target "" "a" "b" "c"); by vm_compute.
Defined.

End handler_witnesses.

Section pruned_witness.
Import strings html cascadia goquery gkereleasenotes.

Lemma pruned_has_no_deep_anchor_witness :
  versionUpdates
    (element 8 "div" [mkAttribute "class" "notes releases"] [text 9 "new"])
  = false
  /\ securityUpdates
       (element 8 "div" [mkAttribute "class" "notes releases"] [text 9 "new"])
     = false.
Proof.
  assert (Hwf : wellFormed (page "old" "new")) by apply page_wellFormed.
  assert (Hc : element 1 "html" []
                 [element 2 "body" []
                    [element 8 "div" [mkAttribute "class" "notes releases"]
                       [text 9 "new"]]]
               ∈ children (pruned (page "old" "new")))
    by (vm_compute; left).
  assert (Hg : element 1 "html" []
                 [element 2 "body" []
                    [element 8 "div" [mkAttribute "class" "notes releases"]
                       [text 9 "new"]]]
               ∈ subtree
                   (element 1 "html" []
                      [element 2 "body" []
                         [element 8 "div"
                            [mkAttribute "class" "notes releases"]
                            [text 9 "new"]]]))
    by (vm_compute; left).
  assert (Hp : element 2 "body" []
                 [element 8 "div" [mkAttribute "class" "notes releases"]
                    [text 9 "new"]]
               ∈ children
                   (element 1 "html" []
                      [element 2 "body" []
                         [element 8 "div"
                            [mkAttribute "class" "notes releases"]
                            [text 9 "new"]]])) by left.
  assert (Ha : element 8 "div" [mkAttribute "class" "notes releases"]
                 [text 9 "new"]
               ∈ children
                   (element 2 "body" []
                      [element 8 "div" [mkAttribute "class" "notes releases"]
                         [text 9 "new"]])) by left.
  exact (pruned_has_no_deep_anchor _ _ _ _ _
           Hwf Hc eq_refl Hg eq_refl Hp eq_refl Ha).
Defined.

End pruned_witness.
